(** * Universal events and shared memory (uesm.h): a shallow embedding

    The header wraps two operating-system facilities behind one API: a named
    event (a Win32 event object, or a POSIX named semaphore) and a named
    shared-memory region (a Win32 file mapping, or a POSIX shm object).  The
    platform is chosen at build time by [#ifdef _WIN32]; here it is a value
    of type [platform], and each function is written once with both branches.

    The code is a sequence of operating-system calls whose results decide
    the next call.  It is embedded in a state monad over an arbitrary
    operating system ([OS]): a world, a transition function giving the
    integer result of each call, and a clock.  The monad records every call
    with its result, so that theorems can speak of which calls were made, in
    which order.  A small reference kernel ([kernel]) instantiates [OS] with
    the documented behaviour of the calls, so that statements can be run. *)

From Stdlib Require Import ZArith Lia List.
From stdpp Require Import gmap strings list fin_maps.
Import ListNotations.
Local Open Scope Z_scope.

(** ** Machine integers *)

(** [unsigned int] is 32 bits wide on both targets. *)
Definition UINT_MODULUS : Z := 2 ^ 32.

(** Value of a signed two's complement integer of [bits] bits holding the
    mathematical value [z] after wrap-around. *)
Definition wrap_signed (bits z : Z) : Z :=
  (z + 2 ^ (bits - 1)) mod 2 ^ bits - 2 ^ (bits - 1).

Definition wrap_unsigned (bits z : Z) : Z := z mod 2 ^ bits.

Definition signed_max (bits : Z) : Z := 2 ^ (bits - 1) - 1.
Definition signed_min (bits : Z) : Z := - 2 ^ (bits - 1).

Definition in_signed (bits z : Z) : Prop :=
  signed_min bits <= z <= signed_max bits.

(** The widths the POSIX headers leave to the target: [time_t] (the type of
    [tv_sec]), [long] (the type of [tv_nsec]) and [off_t] (the type of the
    length [ftruncate] takes). *)
Record abi := { time_bits : Z; long_bits : Z; off_bits : Z }.

Definition ilp32 : abi := {| time_bits := 32; long_bits := 32; off_bits := 32 |}.
Definition lp64 : abi := {| time_bits := 64; long_bits := 64; off_bits := 64 |}.

(** The C standard gives [long] at least 32 bits; [time_t] is at least as
    wide on every POSIX target. *)
Definition abi_ok (a : abi) : Prop := 32 <= time_bits a /\ 32 <= long_bits a.

Inductive platform := Win32 | Posix (a : abi).

(** ** Data *)

(** [struct timespec]. *)
Record timespec := { tv_sec : Z; tv_nsec : Z }.

(** An untyped pointer is modelled by its integer value, read as a signed
    integer of pointer width, so that the all-ones pointer is [-1]. *)
Definition nullptr : Z := 0.

(** Linux/glibc header constants. *)
Definition SEM_FAILED : Z := 0.
Definition MAP_FAILED : Z := -1.
(** [#define INFINITE ((unsigned int)-1)], the Win32 value as well. *)
Definition INFINITE : Z := UINT_MODULUS - 1.
(** Win32 [WaitForSingleObject] results. *)
Definition WAIT_OBJECT_0 : Z := 0.
Definition WAIT_TIMEOUT : Z := 258.
Definition WAIT_FAILED : Z := UINT_MODULUS - 1.

(** [reinterpret_cast<int>(shm)]: the pointer value cut to a 32-bit [int]. *)
Definition int_of_ptr (p : Z) : Z := wrap_signed 32 p.
(** The [reinterpret_cast] of [shm_fd] to a pointer: sign extension, the
    value is kept. *)
Definition ptr_of_int (fd : Z) : Z := fd.

(** ** Operating-system calls

    Each constructor is one call of the source, with the arguments that vary;
    the constant arguments are named in the comments. *)
Inductive os_call :=
  (* Win32 *)
  | CreateEventA (initial_state : bool) (name : string)
      (* CreateEventA(nullptr, FALSE, initial_state, name) *)
  | SetEvent (h : Z)
  | WaitForSingleObject (h : Z) (ms : Z)
  | CloseHandle (h : Z)
  | CreateFileMappingA (size_low : Z) (name : string)
      (* CreateFileMappingA(INVALID_HANDLE_VALUE, nullptr, PAGE_READWRITE, 0, size, name) *)
  | MapViewOfFile (h : Z) (size : Z)
      (* MapViewOfFile(h, FILE_MAP_ALL_ACCESS, 0, 0, size) *)
  | UnmapViewOfFile (p : Z)
  (* POSIX *)
  | sem_open (name : string) (value : Z)
      (* sem_open(name, O_CREAT, 0666, value) *)
  | sem_post (sem : Z)
  | sem_wait (sem : Z)
  | sem_timedwait (sem : Z) (deadline : timespec)
  | sem_close (sem : Z)
  | sem_unlink (name : string)
  | clock_gettime
      (* clock_gettime(CLOCK_REALTIME, &ts) *)
  | shm_open (name : string)
      (* shm_open(name, O_CREAT | O_RDWR, 0666) *)
  | ftruncate (fd : Z) (size : Z)
  | close (fd : Z)
  | shm_unlink (name : string)
  | mmap (size : Z) (fd : Z)
      (* mmap(nullptr, size, PROT_READ | PROT_WRITE, MAP_SHARED, fd, 0) *)
  | munmap (p : Z) (size : Z)
  | perror (msg : string).

(** An operating system: its state, what each call returns and does to the
    state, and the time [clock_gettime] stores through its pointer. *)
Record OS := {
  world : Type;
  exec : os_call -> world -> Z * world;
  clock : world -> timespec
}.

(** The calls made so far, oldest first, each with its result. *)
Definition trace := list (os_call * Z).

(** ** The monad of the code *)

Definition M (os : OS) (A : Type) : Type :=
  world os * trace -> A * (world os * trace).

Definition ret {os A} (a : A) : M os A := fun s => (a, s).

Definition bind {os A B} (m : M os A) (k : A -> M os B) : M os B :=
  fun s => let '(a, s') := m s in k a s'.

Notation "x <- m ;; k" := (bind m (fun x => k))
  (at level 100, m at next level, right associativity).
Notation "m ;;; k" := (bind m (fun _ => k))
  (at level 100, right associativity).

(** Perform one call and log it. *)
Definition call {os} (c : os_call) : M os Z :=
  fun '(w, tr) => let '(r, w') := exec os c w in (r, (w', tr ++ [(c, r)])).

(** [clock_gettime(CLOCK_REALTIME, &ts)]: the status is dropped by the
    source, the time read is the result here. *)
Definition get_time {os} : M os timespec :=
  fun '(w, tr) =>
    let ts := clock os w in
    let '(r, w') := exec os clock_gettime w in
    (ts, (w', tr ++ [(clock_gettime, r)])).

(** Run from a world with an empty log. *)
Definition run {os A} (m : M os A) (w : world os) : A * (world os * trace) :=
  m (w, []).

(** ** Universal event functions *)

Definition create_event {os} (p : platform) (name : option string)
    (initial_state : bool) : M os Z :=
  match name with
  | None => ret nullptr
  | Some n =>
    match p with
    | Win32 => call (CreateEventA initial_state n)
    | Posix _ =>
      sem <- call (sem_open n (if initial_state then 1 else 0)) ;;
      if sem =? SEM_FAILED
      then call (perror "sem_open") ;;; ret nullptr
      else ret sem
    end
  end.

(** A Win32 [BOOL] converts to [bool] as "non-zero". *)
Definition set_event {os} (p : platform) (event : Z) : M os bool :=
  if event =? nullptr then ret false
  else
    match p with
    | Win32 => r <- call (SetEvent event) ;; ret (negb (r =? 0))
    | Posix _ => r <- call (sem_post event) ;; ret (r =? 0)
    end.

(** The deadline arithmetic of [wait_for_event]: [timeout_ms] is an
    [unsigned int], so the quotient, the remainder and the product stay in
    [unsigned int] before they are added to the [time_t] and [long] fields.
    Where a field is no wider than [unsigned int] the sum is unsigned and
    wraps on its way back into the field; where it is wider a sum out of
    range is undefined in C++, and the value given here stands for
    nothing.  The theorems on the deadline exclude that by hypothesis. *)
Definition deadline (a : abi) (ts : timespec) (timeout_ms : Z) : timespec :=
  let sec := wrap_signed (time_bits a)
               (tv_sec ts + wrap_unsigned 32 (timeout_ms / 1000)) in
  let nsec := wrap_signed (long_bits a)
                (tv_nsec ts + wrap_unsigned 32 ((timeout_ms mod 1000) * 1000000)) in
  if 1000000000 <=? nsec
  then {| tv_sec := wrap_signed (time_bits a) (sec + 1);
          tv_nsec := wrap_signed (long_bits a) (nsec - 1000000000) |}
  else {| tv_sec := sec; tv_nsec := nsec |}.

Definition wait_for_event {os} (p : platform) (event : Z) (timeout_ms : Z)
    : M os bool :=
  if event =? nullptr then ret false
  else
    match p with
    | Win32 =>
      result <- call (WaitForSingleObject event timeout_ms) ;;
      ret (result =? WAIT_OBJECT_0)
    | Posix a =>
      if timeout_ms =? INFINITE
      then r <- call (sem_wait event) ;; ret (r =? 0)
      else
        ts <- get_time ;;
        r <- call (sem_timedwait event (deadline a ts timeout_ms)) ;;
        ret (r =? 0)
    end.

Definition close_event {os} (p : platform) (event : Z) (name : option string)
    : M os unit :=
  if event =? nullptr then ret tt
  else
    match p with
    | Win32 => call (CloseHandle event) ;;; ret tt
    | Posix _ =>
      call (sem_close event) ;;;
      match name with
      | None => ret tt
      | Some n => call (sem_unlink n) ;;; ret tt
      end
    end.

(** ** Universal shared memory functions *)

(** [ftruncate(shm_fd, size)] takes the [size_t] size as an [off_t]: the
    same bits read as a signed length, so that a size from the upper half
    of [size_t] arrives negative where [off_t] is no wider. *)
Definition off_t_of_size (a : abi) (size : Z) : Z :=
  wrap_signed (off_bits a) size.

(** On Win32 the [size_t] size is passed for the [DWORD] low half of the
    maximum size, the high half is [0]. *)
Definition create_shared_memory {os} (p : platform) (name : option string)
    (size : Z) : M os Z :=
  match name with
  | None => ret nullptr
  | Some n =>
    if size =? 0 then ret nullptr
    else
      match p with
      | Win32 => call (CreateFileMappingA (wrap_unsigned 32 size) n)
      | Posix a =>
        shm_fd <- call (shm_open n) ;;
        if shm_fd =? -1
        then call (perror "shm_open") ;;; ret nullptr
        else
          r <- call (ftruncate shm_fd (off_t_of_size a size)) ;;
          if r =? -1
          then
            call (perror "ftruncate") ;;;
            call (close shm_fd) ;;;
            call (shm_unlink n) ;;;
            ret nullptr
          else ret (ptr_of_int shm_fd)
      end
  end.

Definition map_shared_memory {os} (p : platform) (shm : Z) (size : Z)
    : M os Z :=
  if shm =? nullptr then ret nullptr
  else if size =? 0 then ret nullptr
  else
    match p with
    | Win32 =>
      ptr <- call (MapViewOfFile shm size) ;;
      if ptr =? nullptr
      then call (CloseHandle shm) ;;; ret ptr
      else ret ptr
    | Posix _ =>
      let shm_fd := int_of_ptr shm in
      ptr <- call (mmap size shm_fd) ;;
      if ptr =? MAP_FAILED
      then
        call (perror "mmap") ;;;
        call (close shm_fd) ;;;
        ret nullptr
      else ret ptr
    end.

Definition close_shared_memory {os} (p : platform) (shm : Z)
    (name : option string) (mapped : Z) (size : Z) : M os unit :=
  if shm =? nullptr then ret tt
  else
    match p with
    | Win32 =>
      (if mapped =? nullptr then ret tt
       else call (UnmapViewOfFile mapped) ;;; ret tt) ;;;
      call (CloseHandle shm) ;;;
      ret tt
    | Posix _ =>
      (if mapped =? nullptr then ret tt
       else call (munmap mapped size) ;;; ret tt) ;;;
      call (close (int_of_ptr shm)) ;;;
      match name with
      | None => ret tt
      | Some n => call (shm_unlink n) ;;; ret tt
      end
    end.

(** ** A reference kernel

    One process, one kernel: the objects, the namespace, the handle table
    and the mapped pages, with the calls behaving as POSIX and Win32
    document them.  It serves to run the functions above; the general
    theorems hold for every [OS].

    Two things a call can do have no return value: block for ever (a wait
    without timeout on an object that nobody else signals) and end the
    process (the use of a semaphore address that is not an open semaphore).
    The field [process] records them.  Once it is not [Running] the real
    process has not gone further, and what the calls compute afterwards
    stands for nothing. *)

Inductive kobject :=
  | Semaphore (value : Z)
  | Event (signaled : bool)
  | Memory (size : Z).

Inductive process_state := Running | Blocked | Crashed.

Record kernel := {
  objects : gmap Z kobject;   (* live objects, by identity *)
  names : gmap string Z;      (* namespace: name to object *)
  handles : gmap Z Z;         (* handle, descriptor or semaphore address to object *)
  views : gmap Z (Z * Z);     (* mapped page to object and base address of its mapping *)
  fresh : Z;                  (* next unused identity, handle and page *)
  now : timespec;             (* CLOCK_REALTIME *)
  errno : Z;
  file_limit : Z;             (* largest object size the file system takes *)
  vm_limit : Z;               (* end of the address space, which starts at 0 *)
  signals : nat;              (* signals whose handlers will run during the
                                 next waits that block *)
  process : process_state
}.

Definition EINTR : Z := 4.
Definition EBADF : Z := 9.
Definition ENOMEM : Z := 12.
Definition EINVAL : Z := 22.
Definition ENOENT : Z := 2.
Definition EOVERFLOW : Z := 75.
Definition ETIMEDOUT : Z := 110.
Definition SEM_VALUE_MAX : Z := 2147483647.
Definition PAGE_SIZE : Z := 4096.

Definition set_objects (o : gmap Z kobject) (k : kernel) : kernel :=
  {| objects := o; names := names k; handles := handles k; views := views k;
     fresh := fresh k; now := now k; errno := errno k;
     file_limit := file_limit k; vm_limit := vm_limit k;
     signals := signals k; process := process k |}.
Definition set_names (n : gmap string Z) (k : kernel) : kernel :=
  {| objects := objects k; names := n; handles := handles k; views := views k;
     fresh := fresh k; now := now k; errno := errno k;
     file_limit := file_limit k; vm_limit := vm_limit k;
     signals := signals k; process := process k |}.
Definition set_handles (h : gmap Z Z) (k : kernel) : kernel :=
  {| objects := objects k; names := names k; handles := h; views := views k;
     fresh := fresh k; now := now k; errno := errno k;
     file_limit := file_limit k; vm_limit := vm_limit k;
     signals := signals k; process := process k |}.
Definition set_views (v : gmap Z (Z * Z)) (k : kernel) : kernel :=
  {| objects := objects k; names := names k; handles := handles k; views := v;
     fresh := fresh k; now := now k; errno := errno k;
     file_limit := file_limit k; vm_limit := vm_limit k;
     signals := signals k; process := process k |}.
Definition set_fresh (f : Z) (k : kernel) : kernel :=
  {| objects := objects k; names := names k; handles := handles k;
     views := views k; fresh := f; now := now k; errno := errno k;
     file_limit := file_limit k; vm_limit := vm_limit k;
     signals := signals k; process := process k |}.
Definition set_now (t : timespec) (k : kernel) : kernel :=
  {| objects := objects k; names := names k; handles := handles k;
     views := views k; fresh := fresh k; now := t; errno := errno k;
     file_limit := file_limit k; vm_limit := vm_limit k;
     signals := signals k; process := process k |}.
Definition set_errno (e : Z) (k : kernel) : kernel :=
  {| objects := objects k; names := names k; handles := handles k;
     views := views k; fresh := fresh k; now := now k; errno := e;
     file_limit := file_limit k; vm_limit := vm_limit k;
     signals := signals k; process := process k |}.
Definition set_signals (s : nat) (k : kernel) : kernel :=
  {| objects := objects k; names := names k; handles := handles k;
     views := views k; fresh := fresh k; now := now k; errno := errno k;
     file_limit := file_limit k; vm_limit := vm_limit k;
     signals := s; process := process k |}.
Definition set_process (p : process_state) (k : kernel) : kernel :=
  {| objects := objects k; names := names k; handles := handles k;
     views := views k; fresh := fresh k; now := now k; errno := errno k;
     file_limit := file_limit k; vm_limit := vm_limit k;
     signals := signals k; process := p |}.

(** A POSIX call failing with [e]. *)
Definition fails (e : Z) (k : kernel) : Z * kernel := (-1, set_errno e k).

(** A call that does not return: the process blocks for ever, or dies. *)
Definition never_returns (p : process_state) (k : kernel) : Z * kernel :=
  (-1, set_process p k).

(** The object a handle refers to. *)
Definition object_of (h : Z) (k : kernel) : option (Z * kobject) :=
  match handles k !! h with
  | Some id => match objects k !! id with
               | Some o => Some (id, o)
               | None => None
               end
  | None => None
  end.

(** Open the object called [key], creating it as [init] when the name is
    free; [same] tells whether an existing object has the wanted kind.  The
    result is the new handle, or [None] when the name is taken by an object
    of another kind. *)
Definition open_or_create (key : string) (init : kobject)
    (same : kobject -> bool) (k : kernel) : option (Z * kernel) :=
  match names k !! key with
  | Some id =>
    match objects k !! id with
    | Some o =>
      if same o
      then Some (fresh k,
                 set_fresh (fresh k + 1)
                   (set_handles (<[fresh k := id]> (handles k)) k))
      else None
    | None => None
    end
  | None =>
    Some (fresh k + 1,
          set_fresh (fresh k + 2)
            (set_handles (<[fresh k + 1 := fresh k]> (handles k))
               (set_names (<[key := fresh k]> (names k))
                  (set_objects (<[fresh k := init]> (objects k)) k))))
  end.

Definition is_semaphore (o : kobject) : bool :=
  match o with Semaphore _ => true | _ => false end.
Definition is_event (o : kobject) : bool :=
  match o with Event _ => true | _ => false end.
Definition is_memory (o : kobject) : bool :=
  match o with Memory _ => true | _ => false end.

(** Linux keeps named semaphores beside the shared-memory objects, under
    the name with [sem.] in front. *)
Definition sem_key (name : string) : string := "sem." +:+ name.

Definition timespec_le (a b : timespec) : bool :=
  (tv_sec a <? tv_sec b) || ((tv_sec a =? tv_sec b) && (tv_nsec a <=? tv_nsec b)).

(** Whether some handle, descriptor or mapped page refers to the object,
    and whether some name does. *)
Definition referenced (id : Z) (k : kernel) : bool :=
  negb (bool_decide (map_Forall (fun (_ : Z) i => i ≠ id) (handles k)))
  || negb (bool_decide (map_Forall (fun (_ : Z) (v : Z * Z) => v.1 ≠ id) (views k))).

Definition named (id : Z) (k : kernel) : bool :=
  negb (bool_decide (map_Forall (fun (_ : string) i => i ≠ id) (names k))).

(** POSIX: an object lives while it has a name, a descriptor or a mapped
    page. *)
Definition reap_posix (id : Z) (k : kernel) : kernel :=
  if referenced id k || named id k then k
  else set_objects (delete id (objects k)) k.

Definition reap_all_posix (k : kernel) : kernel :=
  set_objects
    (filter (fun io : Z * kobject => Is_true (referenced io.1 k || named io.1 k))
       (objects k))
    k.

(** Win32: an object, and its name with it, lives while it has a handle or
    a view. *)
Definition reap_win32 (id : Z) (k : kernel) : kernel :=
  if referenced id k then k
  else set_names (filter (fun kv => kv.2 ≠ id) (names k))
         (set_objects (delete id (objects k)) k).

(** The pages of a mapping of [size] bytes, and their entry in [views]. *)
Definition page_count (size : Z) : Z := (size + PAGE_SIZE - 1) / PAGE_SIZE.

Fixpoint map_pages (first : Z) (count : nat) (v : Z * Z)
    (m : gmap Z (Z * Z)) : gmap Z (Z * Z) :=
  match count with
  | O => m
  | S c => <[first := v]> (map_pages (first + 1) c v m)
  end.

(** Whether the bytes from [p] to [p + size - 1] lie in the address
    space. *)
Definition in_address_space (p size : Z) (k : kernel) : bool :=
  (0 <=? p) && (p + size <=? vm_limit k).

(** A new mapping of [size] bytes of the object [id]: the pages from
    [fresh] on, so that the base address is a multiple of the page size. *)
Definition map_object (id size : Z) (k : kernel) : Z * kernel :=
  (fresh k * PAGE_SIZE,
   set_fresh (fresh k + page_count size)
     (set_views (map_pages (fresh k) (Z.to_nat (page_count size))
                   (id, fresh k * PAGE_SIZE) (views k)) k)).

(** The pages left when those of the bytes from [p] to [p + size - 1] go. *)
Definition unmap_range (p size : Z) (m : gmap Z (Z * Z)) : gmap Z (Z * Z) :=
  filter (fun pv : Z * (Z * Z) =>
            pv.1 < p / PAGE_SIZE \/ (p + size - 1) / PAGE_SIZE < pv.1) m.

(** The pages left when the mapping made at [base] goes. *)
Definition unmap_view (base : Z) (m : gmap Z (Z * Z)) : gmap Z (Z * Z) :=
  filter (fun pv : Z * (Z * Z) => pv.2.2 ≠ base) m.

(** A wait that finds the object unsignaled and has no deadline: a signal
    handler that is due interrupts it, otherwise it blocks for ever. *)
Definition block_or_interrupt (k : kernel) : Z * kernel :=
  match signals k with
  | S s => fails EINTR (set_signals s k)
  | O => never_returns Blocked k
  end.

Definition kernel_exec (c : os_call) (k : kernel) : Z * kernel :=
  match c with
  | sem_open name value =>
    if bool_decide (name = "") then (SEM_FAILED, set_errno EINVAL k)
    else match open_or_create (sem_key name) (Semaphore value) is_semaphore k with
         | Some r => r
         | None => (SEM_FAILED, set_errno EINVAL k)
         end
  | sem_post sem =>
    match object_of sem k with
    | Some (id, Semaphore v) =>
      if v <? SEM_VALUE_MAX
      then (0, set_objects (<[id := Semaphore (v + 1)]> (objects k)) k)
      else fails EOVERFLOW k
    | _ => never_returns Crashed k
    end
  | sem_wait sem =>
    match object_of sem k with
    | Some (id, Semaphore v) =>
      if 0 <? v
      then (0, set_objects (<[id := Semaphore (v - 1)]> (objects k)) k)
      else block_or_interrupt k
    | _ => never_returns Crashed k
    end
  | sem_timedwait sem ts =>
    match object_of sem k with
    | Some (id, Semaphore v) =>
      if 0 <? v
      then (0, set_objects (<[id := Semaphore (v - 1)]> (objects k)) k)
      else if negb ((0 <=? tv_nsec ts) && (tv_nsec ts <? 1000000000))
      then fails EINVAL k
      else if timespec_le ts (now k)
      then fails ETIMEDOUT k
      else match signals k with
           | S s => fails EINTR (set_signals s k)
           | O => fails ETIMEDOUT (set_now ts k)
           end
    | _ => never_returns Crashed k
    end
  | sem_close sem =>
    match object_of sem k with
    | Some (id, Semaphore _) =>
      (0, reap_posix id (set_handles (delete sem (handles k)) k))
    | _ => fails EINVAL k
    end
  | sem_unlink name =>
    match names k !! sem_key name with
    | Some id => (0, reap_posix id (set_names (delete (sem_key name) (names k)) k))
    | None => fails ENOENT k
    end
  | clock_gettime => (0, k)
  | shm_open name =>
    if bool_decide (name = "") then fails EINVAL k
    else match open_or_create name (Memory 0) is_memory k with
         | Some r => r
         | None => fails EINVAL k
         end
  | ftruncate fd size =>
    match object_of fd k with
    | Some (id, Memory _) =>
      if (0 <=? size) && (size <=? file_limit k)
      then (0, set_objects (<[id := Memory size]> (objects k)) k)
      else fails EINVAL k
    | Some _ => fails EINVAL k
    | None => fails EBADF k
    end
  | close fd =>
    match handles k !! fd with
    | Some id => (0, reap_posix id (set_handles (delete fd (handles k)) k))
    | None => fails EBADF k
    end
  | shm_unlink name =>
    match names k !! name with
    | Some id => (0, reap_posix id (set_names (delete name (names k)) k))
    | None => fails ENOENT k
    end
  | mmap size fd =>
    match object_of fd k with
    | Some (id, Memory _) =>
      if size <=? 0 then (MAP_FAILED, set_errno EINVAL k)
      else if in_address_space (fresh k * PAGE_SIZE) size k
      then map_object id size k
      else (MAP_FAILED, set_errno ENOMEM k)
    | Some _ => (MAP_FAILED, set_errno EINVAL k)
    | None => (MAP_FAILED, set_errno EBADF k)
    end
  | munmap p size =>
    if (0 <? size) && (p mod PAGE_SIZE =? 0) && in_address_space p size k
    then (0, reap_all_posix (set_views (unmap_range p size (views k)) k))
    else fails EINVAL k
  | perror _ => (0, k)
  | CreateEventA initial_state name =>
    match open_or_create name (Event initial_state) is_event k with
    | Some r => r
    | None => (nullptr, k)
    end
  | SetEvent h =>
    match object_of h k with
    | Some (id, Event _) =>
      (1, set_objects (<[id := Event true]> (objects k)) k)
    | _ => (0, k)
    end
  | WaitForSingleObject h ms =>
    match object_of h k with
    | Some (id, Event true) =>
      (WAIT_OBJECT_0, set_objects (<[id := Event false]> (objects k)) k)
    | Some (id, Event false) =>
      if ms =? INFINITE then never_returns Blocked k else (WAIT_TIMEOUT, k)
    | _ => (WAIT_FAILED, k)
    end
  | CloseHandle h =>
    match handles k !! h with
    | Some id => (1, reap_win32 id (set_handles (delete h (handles k)) k))
    | None => (0, k)
    end
  | CreateFileMappingA size_low name =>
    if size_low =? 0 then (nullptr, k)
    else match open_or_create name (Memory size_low) is_memory k with
         | Some r => r
         | None => (nullptr, k)
         end
  | MapViewOfFile h size =>
    match object_of h k with
    | Some (id, Memory n) =>
      if (0 <? size) && (size <=? n)
         && in_address_space (fresh k * PAGE_SIZE) size k
      then map_object id size k
      else (nullptr, k)
    | _ => (nullptr, k)
    end
  | UnmapViewOfFile p =>
    match views k !! (p / PAGE_SIZE) with
    | Some (id, base) =>
      if base =? p
      then (1, reap_win32 id (set_views (unmap_view p (views k)) k))
      else (0, k)
    | None => (0, k)
    end
  end.

Definition reference_os : OS :=
  {| world := kernel; exec := kernel_exec; clock := now |}.

(** A freshly booted kernel at the Unix time [t]: nothing named, nothing
    open, the three standard descriptors taken, no signal due. *)
Definition boot (t : timespec) : kernel :=
  {| objects := ∅; names := ∅; handles := ∅; views := ∅; fresh := 3;
     now := t; errno := 0;
     file_limit := 2 ^ 63 - 1; vm_limit := 2 ^ 40;
     signals := O; process := Running |}.

Definition noon : timespec := {| tv_sec := 1700000000; tv_nsec := 250000000 |}.

(** ** Reading a run *)

Definition result {A W} (x : A * (W * trace)) : A := x.1.
Definition final {A W} (x : A * (W * trace)) : W := x.2.1.
Definition log {A W} (x : A * (W * trace)) : trace := x.2.2.

(** The calls of a log, without their results. *)
Definition calls (tr : trace) : list os_call := map fst tr.

(** The platform's call for each step of the shared-region life cycle. *)
Definition open_event_call (p : platform) (n : string) (initial_state : bool)
    : os_call :=
  match p with
  | Win32 => CreateEventA initial_state n
  | Posix _ => sem_open n (if initial_state then 1 else 0)
  end.

(** The value by which that call reports failure. *)
Definition open_event_failure (p : platform) : Z :=
  match p with Win32 => nullptr | Posix _ => SEM_FAILED end.

Definition map_call (p : platform) (shm size : Z) : os_call :=
  match p with
  | Win32 => MapViewOfFile shm size
  | Posix _ => mmap size (int_of_ptr shm)
  end.

Definition map_failure (p : platform) : Z :=
  match p with Win32 => nullptr | Posix _ => MAP_FAILED end.

Definition unmap_call (p : platform) (mapped size : Z) : os_call :=
  match p with
  | Win32 => UnmapViewOfFile mapped
  | Posix _ => munmap mapped size
  end.

Definition close_call (p : platform) (shm : Z) : os_call :=
  match p with
  | Win32 => CloseHandle shm
  | Posix _ => close (int_of_ptr shm)
  end.

(** The calls that wait on an event. *)
Definition is_wait_call (c : os_call) : bool :=
  match c with
  | WaitForSingleObject _ _ | sem_wait _ | sem_timedwait _ _ => true
  | _ => false
  end.

(** What a wait came to, as the operating system reports it: POSIX by the
    status and [errno], Win32 by the value returned. *)
Inductive wait_outcome := Signaled | TimedOut | Failed.

Definition posix_wait_outcome (status errno_after : Z) : wait_outcome :=
  if status =? 0 then Signaled
  else if errno_after =? ETIMEDOUT then TimedOut
  else Failed.

Definition win32_wait_outcome (status : Z) : wait_outcome :=
  if status =? WAIT_OBJECT_0 then Signaled
  else if status =? WAIT_TIMEOUT then TimedOut
  else Failed.

(** A point in time as a number of nanoseconds. *)
Definition nanoseconds (ts : timespec) : Z :=
  tv_sec ts * 1000000000 + tv_nsec ts.

(** ** Scenarios on the reference kernel *)

Definition run_ref {A} (m : M reference_os A) (k : kernel)
    : A * (kernel * trace) := run (os := reference_os) m k.

(** A POSIX process has created the region [shm1] of 4096 bytes; the
    descriptor it holds is [4]. *)
Definition region_created : Z * (kernel * trace) :=
  run_ref (create_shared_memory (Posix lp64) (Some "shm1"%string) 4096)
    (boot noon).

(** It then asks for a mapping larger than the address space. *)
Definition oversized_map : Z * (kernel * trace) :=
  run_ref (map_shared_memory (Posix lp64) (result region_created) (2 ^ 50))
    (final region_created).

(** A POSIX process has created the event [evt1], not signaled; the handle
    it holds is [4]. *)
Definition event_created : Z * (kernel * trace) :=
  run_ref (create_event (Posix lp64) (Some "evt1"%string) false) (boot noon).

(** Waiting 100 ms on it, nobody signals. *)
Definition wait_unsignaled : bool * (kernel * trace) :=
  run_ref (wait_for_event (Posix lp64) (result event_created) 100)
    (final event_created).

(** Waiting 100 ms on it while a signal arrives whose handler was
    installed without [SA_RESTART]. *)
Definition wait_interrupted : bool * (kernel * trace) :=
  run_ref (wait_for_event (Posix lp64) (result event_created) 100)
    (set_signals 1 (final event_created)).

(** The outcome of a POSIX wait as the kernel reports it. *)
Definition reported_outcome (x : bool * (kernel * trace)) : wait_outcome :=
  match last (log x) with
  | Some (_, status) =>
      posix_wait_outcome status (errno (final x))
  | None => Failed
  end.

(** An event created signaled is signaled once more, then waited for
    twice without delay. *)
Definition signal_then_wait_twice (p : platform)
    : (bool * bool * bool) * (kernel * trace) :=
  run_ref (ev <- create_event p (Some "evt1"%string) true ;;
           s <- set_event p ev ;;
           w1 <- wait_for_event p ev 0 ;;
           w2 <- wait_for_event p ev 0 ;;
           ret (s, w1, w2))
    (boot noon).

(** The semaphore behind the event after creation in the signaled state
    and one more signal. *)
Definition signal_signaled : bool * (kernel * trace) :=
  run_ref (ev <- create_event (Posix lp64) (Some "evt1"%string) true ;;
           set_event (Posix lp64) ev)
    (boot noon).

(** A Win32 process holds two handles, [4] and [5], on the region [shm1]. *)
Definition region_opened_twice : Z * (kernel * trace) :=
  run_ref (create_shared_memory Win32 (Some "shm1"%string) 4096 ;;;
           create_shared_memory Win32 (Some "shm1"%string) 4096)
    (boot noon).

(** It destroys the first, giving the name. *)
Definition close_first_of_two : unit * (kernel * trace) :=
  run_ref (close_shared_memory Win32 4 (Some "shm1"%string) nullptr 0)
    (final region_opened_twice).

(** The process that has created [shm1] destroys a region through the
    handle [7], which it never obtained, giving the name [shm1]. *)
Definition destroy_through_stranger : unit * (kernel * trace) :=
  run_ref (close_shared_memory (Posix lp64) 7 (Some "shm1"%string) nullptr 0)
    (final region_created).

(** A POSIX process asks for a region of 2^63 bytes. *)
Definition region_too_large : Z * (kernel * trace) :=
  run_ref (create_shared_memory (Posix lp64) (Some "shm1"%string) (2 ^ 63))
    (boot noon).

(** A POSIX process has created and mapped [shm1]: descriptor [4], mapping
    at page [5].  It destroys the region, passing the mapping and leaving the
    size at its default, [0]. *)
Definition region_mapped : Z * (kernel * trace) :=
  run_ref (shm <- create_shared_memory (Posix lp64) (Some "shm1"%string) 4096 ;;
           map_shared_memory (Posix lp64) shm 4096)
    (boot noon).

Definition close_with_default_size : unit * (kernel * trace) :=
  run_ref (close_shared_memory (Posix lp64) 4 (Some "shm1"%string)
             (result region_mapped) 0)
    (final region_mapped).

(** The last second of a 32-bit [time_t]: 19 January 2038, 03:14:07. *)
Definition end_of_time32 : timespec :=
  {| tv_sec := 2147483647; tv_nsec := 0 |}.

(** ** More vocabulary for runs *)

(** The platform's calls on an event. *)
Definition signal_call (p : platform) (event : Z) : os_call :=
  match p with Win32 => SetEvent event | Posix _ => sem_post event end.

(** How [set_event] reads the status of that call: a Win32 [BOOL] is
    success when it is not zero, [sem_post] when it is zero. *)
Definition signal_ok (p : platform) (status : Z) : bool :=
  match p with Win32 => negb (status =? 0) | Posix _ => status =? 0 end.

Definition close_event_call (p : platform) (event : Z) : os_call :=
  match p with Win32 => CloseHandle event | Posix _ => sem_close event end.

(** The usual life of a region in one caller: create, map, destroy with
    everything that was obtained. *)
Definition region_lifecycle {os} (p : platform) (n : string) (size : Z)
    : M os unit :=
  shm <- create_shared_memory p (Some n) size ;;
  mapped <- map_shared_memory p shm size ;;
  close_shared_memory p shm (Some n) mapped size.

(** The descriptor a POSIX call works on, if it works on one. *)
Definition descriptor_of (c : os_call) : option Z :=
  match c with
  | ftruncate fd _ | close fd | mmap _ fd => Some fd
  | _ => None
  end.

(** A process started with descriptor [0] closed: the first descriptor the
    kernel hands out is [0]. *)
Definition boot_without_stdin (t : timespec) : kernel :=
  {| objects := ∅; names := ∅; handles := ∅; views := ∅; fresh := -1;
     now := t; errno := 0;
     file_limit := 2 ^ 63 - 1; vm_limit := 2 ^ 40;
     signals := O; process := Running |}.

(** A kernel whose address space ends at 1 MiB. *)
Definition boot_small_vm (t : timespec) : kernel :=
  {| objects := ∅; names := ∅; handles := ∅; views := ∅; fresh := 3;
     now := t; errno := 0;
     file_limit := 2 ^ 63 - 1; vm_limit := 2 ^ 20;
     signals := O; process := Running |}.

(** The kernel object behind an event in either state: a Win32 event, or
    a semaphore holding [1] or [0]. *)
Definition event_object (p : platform) (signaled : bool) : kobject :=
  match p with
  | Win32 => Event signaled
  | Posix _ => Semaphore (if signaled then 1 else 0)
  end.

(** One signal between waits on an event handle. *)
Definition signal_between_waits (p : platform) (event timeout_ms : Z)
    : M reference_os (bool * bool * bool * bool) :=
  w0 <- wait_for_event p event timeout_ms ;;
  s <- set_event p event ;;
  w1 <- wait_for_event p event timeout_ms ;;
  w2 <- wait_for_event p event timeout_ms ;;
  ret (w0, s, w1, w2).

(** ** General facts *)

Ltac exec_step :=
  match goal with
  | |- context [exec ?os ?c ?w] =>
      let r := fresh "r" in
      let w' := fresh "w" in
      let E := fresh "E" in
      destruct (exec os c w) as [r w'] eqn:E; cbn [fst snd]
  end.

Ltac unfold_code :=
  unfold run, result, final, log, calls, bind, call, get_time, ret; cbn [fst snd app].

Lemma wrap_signed_id (bits z : Z) :
  1 <= bits -> in_signed bits z -> wrap_signed bits z = z.
Proof.
  unfold in_signed, signed_min, signed_max, wrap_signed. intros Hb Hz.
  assert (H2 : 2 ^ bits = 2 * 2 ^ (bits - 1)).
  { replace bits with (Z.succ (bits - 1)) at 1 by lia.
    rewrite Z.pow_succ_r by lia. reflexivity. }
  rewrite Z.mod_small by lia. lia.
Qed.

Lemma pow2_le_mono (a b : Z) : 0 <= a <= b -> 2 ^ a <= 2 ^ b.
Proof. intros H. apply Z.pow_le_mono_r; lia. Qed.

(** ** Argument checks *)

(** C6.  [create_shared_memory] with a null name or a zero size, and
    [map_shared_memory] with a null backing handle or a zero size, return
    the null pointer at once: the operating system is not called and its
    state is the one before. *)
Theorem invalid_arguments_rejected_before_os
    (os : OS) (p : platform) (name : option string) (shm size : Z)
    (w : world os) :
  ((name = None \/ size = 0) ->
     run (create_shared_memory p name size) w = (nullptr, (w, []))) /\
  ((shm = nullptr \/ size = 0) ->
     run (map_shared_memory p shm size) w = (nullptr, (w, []))).
Proof.
  split.
  - intros [-> | ->]; unfold run, create_shared_memory, ret.
    + reflexivity.
    + destruct name; reflexivity.
  - intros [-> | ->]; unfold run, map_shared_memory, ret.
    + reflexivity.
    + destruct (shm =? nullptr); reflexivity.
Qed.

Lemma invalid_arguments_rejected_before_os_witness :
  ((Some "shm1"%string = None \/ 0 = 0) /\
   run (os := reference_os)
     (create_shared_memory (Posix lp64) (Some "shm1"%string) 0) (boot noon)
   = (nullptr, (boot noon, []))) /\
  ((nullptr = nullptr \/ 4096 = 0) /\
   run (os := reference_os)
     (map_shared_memory (Posix lp64) nullptr 4096) (boot noon)
   = (nullptr, (boot noon, []))).
Proof.
  pose proof (invalid_arguments_rejected_before_os reference_os (Posix lp64)
                (Some "shm1"%string) nullptr 0 (boot noon)) as [Hcreate _].
  pose proof (invalid_arguments_rejected_before_os reference_os (Posix lp64)
                None nullptr 4096 (boot noon)) as [_ Hmap].
  split; split.
  - right. reflexivity.
  - apply Hcreate. right. reflexivity.
  - left. reflexivity.
  - apply Hmap. left. reflexivity.
Defined.

(** C8.  Destroying a null handle does nothing: [close_event] and
    [close_shared_memory] return without a call to the operating system,
    whatever the name and the other arguments, and the state of the
    operating system is the one before. *)
Theorem destroy_null_is_noop
    (os : OS) (p : platform) (name : option string) (mapped size : Z)
    (w : world os) :
  run (close_event p nullptr name) w = (tt, (w, [])) /\
  run (close_shared_memory p nullptr name mapped size) w = (tt, (w, [])).
Proof. split; reflexivity. Qed.

(** ** Teardown of a shared region *)

(** C7, as the code has it.  For a non-null backing handle
    [close_shared_memory] makes these calls, in this order and no others:
    the unmapping of [mapped] when it is not null, then the closing of the
    backing handle, then, in the POSIX build only, [shm_unlink] of the name
    when one is given.  The Win32 build has no call that removes a name. *)
Theorem close_shared_memory_call_order
    (os : OS) (p : platform) (shm : Z) (name : option string)
    (mapped size : Z) (w : world os) :
  shm <> nullptr ->
  calls (log (run (close_shared_memory p shm name mapped size) w)) =
    (if mapped =? nullptr then [] else [unmap_call p mapped size])
    ++ [close_call p shm]
    ++ match p, name with
       | Posix _, Some n => [shm_unlink n]
       | _, _ => []
       end.
Proof.
  intros Hshm. unfold close_shared_memory.
  destruct (Z.eqb_spec shm nullptr) as [E | _]; [contradiction |].
  destruct p as [| a], name as [n |], (mapped =? nullptr);
    unfold_code; repeat exec_step; reflexivity.
Qed.

Lemma close_shared_memory_call_order_witness :
  4 <> nullptr /\
  calls (log (run (os := reference_os)
                (close_shared_memory (Posix lp64) 4 (Some "shm1"%string) 5 4096)
                (boot noon))) =
    [munmap 5 4096; close 4; shm_unlink "shm1"%string].
Proof.
  split.
  - discriminate.
  - apply (close_shared_memory_call_order reference_os (Posix lp64) 4
             (Some "shm1"%string) 5 4096 (boot noon)).
    discriminate.
Defined.

(** C10, as the code has it.  With a null backing handle
    [close_shared_memory] leaves the operating system as it was and makes
    no call, so the name given is not unlinked.  Whenever a run of
    [close_shared_memory] does unlink a name, the backing handle was not
    null, the name was the one given, and the build is the POSIX one.  The
    handle is tested for null and for nothing else: in the POSIX build
    every non-null handle with a name has the name unlinked, whatever the
    calls before it returned. *)
Theorem no_unlink_without_backing_handle
    (os : OS) (p : platform) (shm : Z) (name : option string)
    (mapped size : Z) (w : world os) :
  (forall n : string,
     final (run (close_shared_memory p nullptr (Some n) mapped size) w) = w /\
     ~ In (shm_unlink n)
         (calls (log (run (close_shared_memory p nullptr (Some n) mapped size) w)))) /\
  (forall n : string,
     In (shm_unlink n)
        (calls (log (run (close_shared_memory p shm name mapped size) w))) ->
     shm <> nullptr /\ name = Some n /\ exists a, p = Posix a) /\
  (forall (a : abi) (n : string),
     shm <> nullptr ->
     In (shm_unlink n)
        (calls (log (run (close_shared_memory (Posix a) shm (Some n) mapped size) w)))).
Proof.
  split; [| split].
  - intros n. split; [reflexivity | intros []].
  - intros n. unfold close_shared_memory.
    destruct (Z.eqb_spec shm nullptr) as [E | Hshm]; [intros [] |].
    destruct p as [| a], name as [m |], (mapped =? nullptr);
      unfold_code; repeat exec_step; cbn [map fst app In]; intros Hin;
      repeat match goal with
             | H : _ \/ _ |- _ => destruct H
             | H : False |- _ => destruct H
             | H : _ = shm_unlink _ |- _ => inversion H; clear H; subst
             end.
    all: split; [exact Hshm | split; [reflexivity | exists a; reflexivity]].
  - intros a n Hshm. unfold close_shared_memory.
    destruct (Z.eqb_spec shm nullptr) as [E | _]; [contradiction |].
    destruct (mapped =? nullptr);
      unfold_code; repeat exec_step; cbn [map fst app In];
      repeat (first [left; reflexivity | right]).
Qed.

Lemma no_unlink_without_backing_handle_witness :
  (In (shm_unlink "shm1"%string)
      (calls (log (run_ref
                     (close_shared_memory (Posix lp64) (result region_created)
                        (Some "shm1"%string) nullptr 0)
                     (final region_created)))) /\
   (result region_created <> nullptr /\
    Some "shm1"%string = Some "shm1"%string /\
    exists a, Posix lp64 = Posix a)) /\
  (7 <> nullptr /\
   In (shm_unlink "shm1"%string)
      (calls (log (run_ref
                     (close_shared_memory (Posix lp64) 7 (Some "shm1"%string)
                        nullptr 0)
                     (final region_created))))).
Proof.
  assert (Hin : In (shm_unlink "shm1"%string)
     (calls (log (run_ref
                    (close_shared_memory (Posix lp64) (result region_created)
                       (Some "shm1"%string) nullptr 0)
                    (final region_created))))).
  { vm_compute. right. left. reflexivity. }
  assert (H7 : 7 <> nullptr) by discriminate.
  split; split.
  - exact Hin.
  - exact (proj1 (proj2 (no_unlink_without_backing_handle reference_os
                           (Posix lp64) (result region_created)
                           (Some "shm1"%string) nullptr 0
                           (final region_created))) "shm1"%string Hin).
  - exact H7.
  - exact (proj2 (proj2 (no_unlink_without_backing_handle reference_os
                           (Posix lp64) 7 (Some "shm1"%string) nullptr 0
                           (final region_created))) lp64 "shm1"%string H7).
Defined.

(** The claim C10 fails where it says that a name is never unlinked
    without a valid backing handle: the handle is tested for null only.
    The process holds descriptor [4] on [shm1] and nothing under [7];
    destroying through [7] with the name fails to close anything and
    unlinks [shm1] all the same. *)
Lemma unlink_through_handle_never_opened :
  ~ (handles (final region_created) !! int_of_ptr 7 = None ->
     ~ In (shm_unlink "shm1"%string) (calls (log destroy_through_stranger)) /\
     names (final destroy_through_stranger) !! "shm1"%string
       = names (final region_created) !! "shm1"%string).
Proof.
  intros H.
  assert (Hstranger : handles (final region_created) !! int_of_ptr 7 = None)
    by (vm_compute; reflexivity).
  destruct (H Hstranger) as [_ Hname].
  vm_compute in Hname. discriminate Hname.
Qed.

(** The claim C7 fails in the Win32 build: a process that holds two
    handles on [shm1] destroys the first and gives the name; no call
    removes the name, and the name still leads to the region afterwards. *)
Lemma close_shared_memory_win32_keeps_name :
  ~ (In (shm_unlink "shm1"%string) (calls (log close_first_of_two)) \/
     names (final close_first_of_two) !! "shm1"%string = None).
Proof.
  intros [Hcall | Hname].
  - vm_compute in Hcall. destruct Hcall as [Hcall | []]. discriminate Hcall.
  - vm_compute in Hname. discriminate Hname.
Qed.

(** The order is one of calls.  Whether the mapping is gone when the
    backing handle is closed is up to the unmapping call: [munmap] refuses
    the default size [0], and on the reference kernel the mapping is then
    still there after the descriptor has been closed. *)
Lemma close_with_default_size_keeps_mapping :
  result region_mapped = 5 * PAGE_SIZE /\
  log close_with_default_size =
    [(munmap (5 * PAGE_SIZE) 0, -1); (close 4, 0); (shm_unlink "shm1"%string, 0)] /\
  views (final close_with_default_size) !! 5 = Some (3, 5 * PAGE_SIZE) /\
  handles (final close_with_default_size) !! 4 = None.
Proof. repeat split; vm_compute; reflexivity. Qed.

(** ** Mapping *)

(** C1, as the code has it.  When the mapping call fails,
    [map_shared_memory] closes the backing handle it was given before it
    returns the null pointer: the calls are the mapping call, the
    diagnostic of the POSIX build, and the closing of the backing handle. *)
Theorem map_failure_closes_backing
    (os : OS) (p : platform) (shm size : Z) (w : world os) :
  shm <> nullptr ->
  size <> 0 ->
  (exec os (map_call p shm size) w).1 = map_failure p ->
  result (run (map_shared_memory p shm size) w) = nullptr /\
  calls (log (run (map_shared_memory p shm size) w)) =
    map_call p shm size
    :: match p with Win32 => [] | Posix _ => [perror "mmap"%string] end
    ++ [close_call p shm].
Proof.
  intros Hshm Hsize Hfail. unfold map_shared_memory.
  destruct (Z.eqb_spec shm nullptr) as [E | _]; [contradiction |].
  destruct (Z.eqb_spec size 0) as [E | _]; [contradiction |].
  destruct p as [| a]; cbn [map_call map_failure close_call] in *;
    unfold_code; exec_step; cbn [fst] in Hfail; subst r;
    cbn; repeat exec_step; split; reflexivity.
Qed.

Lemma map_failure_closes_backing_witness :
  (4 <> nullptr /\ 2 ^ 50 <> 0 /\
   (kernel_exec (map_call (Posix lp64) 4 (2 ^ 50)) (final region_created)).1
   = MAP_FAILED) /\
  result oversized_map = nullptr /\
  calls (log oversized_map) =
    [mmap (2 ^ 50) (int_of_ptr 4); perror "mmap"%string; close (int_of_ptr 4)].
Proof.
  assert (H1 : 4 <> nullptr) by discriminate.
  assert (H2 : 2 ^ 50 <> 0) by discriminate.
  assert (H3 : (exec reference_os (map_call (Posix lp64) 4 (2 ^ 50))
                  (final region_created)).1 = map_failure (Posix lp64))
    by (vm_compute; reflexivity).
  split; [split; [exact H1 | split; [exact H2 | exact H3]] |].
  exact (map_failure_closes_backing reference_os (Posix lp64) 4 (2 ^ 50)
           (final region_created) H1 H2 H3).
Defined.

(** The claim C1 fails on the reference kernel: the descriptor of [shm1]
    is open, the mapping fails, and afterwards the descriptor is neither
    open nor left alone. *)
Lemma map_failure_does_not_keep_backing_open :
  ~ (handles (final region_created) !! result region_created = Some 3 ->
     result oversized_map = nullptr ->
     handles (final oversized_map) !! result region_created
       = handles (final region_created) !! result region_created /\
     ~ In (close (result region_created)) (calls (log oversized_map))).
Proof.
  intros H.
  assert (Hbefore : handles (final region_created) !! result region_created
                    = Some 3) by (vm_compute; reflexivity).
  assert (Hnull : result oversized_map = nullptr) by (vm_compute; reflexivity).
  destruct (H Hbefore Hnull) as [Hopen _].
  vm_compute in Hopen. discriminate Hopen.
Qed.

(** ** Creation of a shared region *)



(** On the reference kernel the failure path leaves nothing behind: the
    descriptor is not open and the name is not in the namespace. *)
Lemma names_reap_posix (id : Z) (k : kernel) :
  names (reap_posix id k) = names k.
Proof. unfold reap_posix. destruct (_ || _); reflexivity. Qed.

Lemma handles_reap_posix (id : Z) (k : kernel) :
  handles (reap_posix id k) = handles k.
Proof. unfold reap_posix. destruct (_ || _); reflexivity. Qed.

Lemma kernel_close_closes (fd : Z) (k : kernel) :
  handles (kernel_exec (close fd) k).2 !! fd = None.
Proof.
  cbn. destruct (handles k !! fd) as [id |] eqn:E; cbn.
  - rewrite handles_reap_posix. cbn. apply lookup_delete_eq.
  - exact E.
Qed.

Lemma kernel_shm_unlink_unlinks (n : string) (k : kernel) :
  names (kernel_exec (shm_unlink n) k).2 !! n = None /\
  handles (kernel_exec (shm_unlink n) k).2 = handles k.
Proof.
  cbn. destruct (names k !! n) as [id |] eqn:E; cbn.
  - rewrite names_reap_posix, handles_reap_posix. cbn.
    split; [apply lookup_delete_eq | reflexivity].
  - split; [exact E | reflexivity].
Qed.

Lemma sizing_failure_leaves_nothing
    (a : abi) (n : string) (size : Z) (k : kernel) :
  size <> 0 ->
  (kernel_exec (shm_open n) k).1 <> -1 ->
  (kernel_exec (ftruncate (kernel_exec (shm_open n) k).1 (off_t_of_size a size))
     (kernel_exec (shm_open n) k).2).1 = -1 ->
  handles (final (run_ref (create_shared_memory (Posix a) (Some n) size) k))
    !! (kernel_exec (shm_open n) k).1 = None /\
  names (final (run_ref (create_shared_memory (Posix a) (Some n) size) k)) !! n
    = None.
Proof.
  intros Hsize Hfd Hfail. unfold run_ref, create_shared_memory.
  destruct (Z.eqb_spec size 0) as [Hbad | _]; [contradiction |].
  unfold_code. change (exec reference_os) with kernel_exec.
  destruct (kernel_exec (shm_open n) k) as [fd k1]. cbn [fst snd] in *.
  destruct (Z.eqb_spec fd (-1)) as [Hbad | _]; [contradiction |].
  cbn [fst snd app].
  destruct (kernel_exec (ftruncate fd (off_t_of_size a size)) k1) as [r k2].
  cbn [fst] in Hfail. subst r. cbn [Z.eqb Pos.eqb fst snd app].
  destruct (kernel_exec (perror "ftruncate") k2) as [r3 k3].
  pose proof (kernel_close_closes fd k3) as Hc.
  destruct (kernel_exec (close fd) k3) as [r4 k4].
  pose proof (kernel_shm_unlink_unlinks n k4) as [Hn Hh].
  destruct (kernel_exec (shm_unlink n) k4) as [r5 k5].
  cbn [fst snd] in *. split; [rewrite Hh; exact Hc | exact Hn].
Qed.

(** Likewise after a failed mapping in the POSIX build: the descriptor
    that was passed in is not open any more. *)
Lemma map_failure_leaves_backing_closed
    (a : abi) (shm size : Z) (k : kernel) :
  shm <> nullptr ->
  size <> 0 ->
  (kernel_exec (mmap size (int_of_ptr shm)) k).1 = MAP_FAILED ->
  handles (final (run_ref (map_shared_memory (Posix a) shm size) k))
    !! int_of_ptr shm = None.
Proof.
  intros Hshm Hsize Hfail. unfold run_ref, map_shared_memory.
  destruct (Z.eqb_spec shm nullptr) as [E | _]; [contradiction |].
  destruct (Z.eqb_spec size 0) as [E | _]; [contradiction |].
  unfold_code. change (exec reference_os) with kernel_exec.
  destruct (kernel_exec (mmap size (int_of_ptr shm)) k) as [r k1] eqn:E1.
  cbn [fst] in Hfail. subst r. cbn [Z.eqb Pos.eqb fst snd MAP_FAILED].
  change (-1 =? MAP_FAILED) with true. cbn iota.
  destruct (kernel_exec (perror "mmap") k1) as [r2 k2] eqn:E2.
  pose proof (kernel_close_closes (int_of_ptr shm) k2) as Hc.
  destruct (kernel_exec (close (int_of_ptr shm)) k2) as [r3 k3] eqn:E3.
  exact Hc.
Qed.

(** ** Creation of an event *)

(** C5, as the code has it.  [create_event] checks the name for null only:
    with a null name it returns the null handle and makes no call; with any
    other name, the empty string included, its first call hands the name to
    the operating system ([CreateEventA] or [sem_open]), and its result is
    what that call returned, or the null handle when the call failed. *)
Theorem create_event_checks_null_only
    (os : OS) (p : platform) (initial_state : bool) (w : world os) :
  run (create_event p None initial_state) w = (nullptr, (w, [])) /\
  forall n : string,
    head (calls (log (run (create_event p (Some n) initial_state) w)))
      = Some (open_event_call p n initial_state) /\
    result (run (create_event p (Some n) initial_state) w)
      = let r := (exec os (open_event_call p n initial_state) w).1 in
        if r =? open_event_failure p then nullptr else r.
Proof.
  split; [reflexivity |].
  intros n. unfold create_event.
  destruct p as [| a]; cbn [open_event_call open_event_failure]; unfold_code.
  - exec_step. split; [reflexivity |].
    destruct (Z.eqb_spec r nullptr) as [-> | Hr]; reflexivity.
  - exec_step. destruct (r =? SEM_FAILED); [exec_step |]; split; reflexivity.
Qed.

(** The claim C5 fails at the empty name: on either platform the reference
    kernel is called. *)
Lemma create_event_empty_name_reaches_os :
  ~ (log (run_ref (create_event (Posix lp64) (Some ""%string) false) (boot noon))
       = [] \/
     log (run_ref (create_event Win32 (Some ""%string) false) (boot noon))
       = []).
Proof. intros [H | H]; vm_compute in H; discriminate H. Qed.

(** ** Waiting *)

(** C4, as the code has it.  [wait_for_event] has two results.  It is
    [true] exactly when the last call made is a wait that returned [0]
    (which is [WAIT_OBJECT_0] on Win32); it is [false] for a null handle
    and for every other status of the wait, a timeout and a failure
    alike. *)
Theorem wait_for_event_two_valued
    (os : OS) (p : platform) (event timeout_ms : Z) (w : world os) :
  result (run (wait_for_event p event timeout_ms) w) =
    match last (log (run (wait_for_event p event timeout_ms) w)) with
    | Some (c, status) => is_wait_call c && (status =? 0)
    | None => false
    end.
Proof.
  unfold wait_for_event.
  destruct (event =? nullptr); [reflexivity |].
  destruct p as [| a].
  - unfold_code. exec_step. reflexivity.
  - destruct (timeout_ms =? INFINITE); unfold_code; repeat exec_step; reflexivity.
Qed.

(** The claim C4 fails: on one open event, a wait that timed out and a
    wait that a signal handler interrupted, which the kernel reports as
    [TimedOut] ([ETIMEDOUT]) and [Failed] ([EINTR]), give the same result,
    so that no reading of the result tells them apart. *)
Lemma wait_for_event_not_tri_state :
  ~ exists classify : bool -> wait_outcome,
      classify (result wait_unsignaled) = reported_outcome wait_unsignaled /\
      classify (result wait_interrupted) = reported_outcome wait_interrupted.
Proof.
  intros (classify & Ha & Hb).
  vm_compute in Ha, Hb. rewrite Ha in Hb. discriminate Hb.
Qed.

(** ** Signaling *)

Lemma set_objects_same (k : kernel) : set_objects (objects k) k = k.
Proof. destruct k; reflexivity. Qed.

Lemma object_of_lookup (h id : Z) (o : kobject) (k : kernel) :
  object_of h k = Some (id, o) -> objects k !! id = Some o.
Proof.
  unfold object_of. destruct (handles k !! h) as [i |]; [| discriminate].
  destruct (objects k !! i) as [o' |] eqn:E; [| discriminate].
  intros H. inversion H; subst. exact E.
Qed.

(** POSIX: every signal adds one to the semaphore, signaled or not. *)
Lemma set_event_posix_counts (a : abi) (ev id v : Z) (k : kernel) :
  ev <> nullptr ->
  object_of ev k = Some (id, Semaphore v) ->
  v < SEM_VALUE_MAX ->
  run_ref (set_event (Posix a) ev) k =
    (true, (set_objects (<[id := Semaphore (v + 1)]> (objects k)) k,
            [(sem_post ev, 0)])).
Proof.
  intros Hev Hobj Hv. unfold run_ref, set_event.
  destruct (Z.eqb_spec ev nullptr) as [E | _]; [contradiction |].
  unfold_code. cbn [exec reference_os kernel_exec]. rewrite Hobj.
  destruct (Z.ltb_spec v SEM_VALUE_MAX) as [_ | Hge]; [reflexivity | lia].
Qed.

(** Win32: a signal on a signaled event changes nothing. *)
Lemma set_event_win32_idempotent (ev id : Z) (k : kernel) :
  ev <> nullptr ->
  object_of ev k = Some (id, Event true) ->
  run_ref (set_event Win32 ev) k = (true, (k, [(SetEvent ev, 1)])).
Proof.
  intros Hev Hobj. unfold run_ref, set_event.
  destruct (Z.eqb_spec ev nullptr) as [E | _]; [contradiction |].
  unfold_code. cbn [exec reference_os kernel_exec]. rewrite Hobj.
  rewrite (insert_id (objects k) id (Event true))
    by exact (object_of_lookup _ _ _ _ Hobj).
  rewrite set_objects_same. reflexivity.
Qed.

(** C3, where the code departs from it.  In the POSIX build a signal on
    an event that is already signaled is counted: the semaphore goes from 1
    to 2 and the two waits that follow both succeed.  In the Win32 build
    the same calls leave the event signaled once, and the second wait times
    out. *)
Theorem posix_signal_on_signaled_event_accumulates :
  result (signal_then_wait_twice (Posix lp64)) = (true, true, true) /\
  objects (final signal_signaled) !! 3 = Some (Semaphore 2) /\
  result (signal_then_wait_twice Win32) = (true, true, false).
Proof. repeat split; vm_compute; reflexivity. Qed.

(** ** The deadline of a timed wait *)

Lemma wrap_unsigned_id (z : Z) : 0 <= z < 2 ^ 32 -> wrap_unsigned 32 z = z.
Proof. intros H. unfold wrap_unsigned. apply Z.mod_small. exact H. Qed.

Lemma signed_range_32 (bits : Z) :
  32 <= bits -> signed_min bits <= -2147483648 /\ 2147483647 <= signed_max bits.
Proof.
  intros H. unfold signed_min, signed_max.
  pose proof (pow2_le_mono 31 (bits - 1)) as Hp.
  change (2 ^ 31) with 2147483648 in Hp. lia.
Qed.

(** C9, as the code has it.  For a finite timeout and a starting time whose
    nanosecond field is in [0, 1000000000), whenever the seconds of the
    exact deadline still fit [time_t], the deadline computed is the start
    plus exactly [timeout_ms] milliseconds, and its nanosecond field is in
    [0, 1000000000) again: the sum before normalisation is below
    2000000000, so one subtraction is enough. *)
Theorem deadline_exact (a : abi) (ts : timespec) (timeout_ms : Z) :
  abi_ok a ->
  0 <= timeout_ms < UINT_MODULUS ->
  timeout_ms <> INFINITE ->
  in_signed (time_bits a) (tv_sec ts) ->
  0 <= tv_nsec ts < 1000000000 ->
  tv_sec ts + (tv_nsec ts + timeout_ms * 1000000) / 1000000000
    <= signed_max (time_bits a) ->
  nanoseconds (deadline a ts timeout_ms)
    = nanoseconds ts + timeout_ms * 1000000 /\
  0 <= tv_nsec (deadline a ts timeout_ms) < 1000000000 /\
  tv_nsec ts + (timeout_ms mod 1000) * 1000000 < 2000000000.
Proof.
  intros [Htime Hlong] Hms _ Hsec Hnsec Hfit.
  unfold UINT_MODULUS in Hms. change (2 ^ 32) with 4294967296 in Hms.
  pose proof (signed_range_32 _ Htime) as Ht32.
  pose proof (signed_range_32 _ Hlong) as Hl32.
  assert (Hq : 0 <= timeout_ms / 1000 <= 4294967)
    by (Z.div_mod_to_equations; lia).
  assert (Hr : 0 <= timeout_ms mod 1000 < 1000)
    by (apply Z.mod_pos_bound; lia).
  assert (Hsplit : timeout_ms = 1000 * (timeout_ms / 1000) + timeout_ms mod 1000)
    by (apply Z.div_mod; lia).
  set (q := timeout_ms / 1000) in *. set (r := timeout_ms mod 1000) in *.
  assert (Hcarry : (tv_nsec ts + timeout_ms * 1000000) / 1000000000
                   = q + (tv_nsec ts + r * 1000000) / 1000000000).
  { replace (tv_nsec ts + timeout_ms * 1000000)
      with (tv_nsec ts + r * 1000000 + q * 1000000000) by lia.
    rewrite Z.div_add by lia. lia. }
  rewrite Hcarry in Hfit.
  unfold deadline, nanoseconds, in_signed in *.
  rewrite !wrap_unsigned_id by (change (2 ^ 32) with 4294967296; lia).
  fold q r.
  rewrite (wrap_signed_id (long_bits a) (tv_nsec ts + r * 1000000))
    by (unfold in_signed; lia).
  assert (Hc : 0 <= (tv_nsec ts + r * 1000000) / 1000000000 <= 1)
    by (Z.div_mod_to_equations; lia).
  rewrite (wrap_signed_id (time_bits a) (tv_sec ts + q))
    by (unfold in_signed; lia).
  destruct (Z.leb_spec 1000000000 (tv_nsec ts + r * 1000000)) as [Hge | Hlt].
  - assert (Hone : (tv_nsec ts + r * 1000000) / 1000000000 = 1)
      by (Z.div_mod_to_equations; lia).
    rewrite (wrap_signed_id (time_bits a) (tv_sec ts + q + 1))
      by (unfold in_signed; lia).
    rewrite (wrap_signed_id (long_bits a)) by (unfold in_signed; lia).
    cbn [tv_sec tv_nsec]. lia.
  - cbn [tv_sec tv_nsec]. lia.
Qed.

Lemma deadline_exact_witness :
  (abi_ok lp64 /\ 0 <= 1999 < UINT_MODULUS /\ 1999 <> INFINITE /\
   in_signed (time_bits lp64) (tv_sec noon) /\
   0 <= tv_nsec noon < 1000000000 /\
   tv_sec noon + (tv_nsec noon + 1999 * 1000000) / 1000000000
     <= signed_max (time_bits lp64)) /\
  nanoseconds (deadline lp64 noon 1999) = nanoseconds noon + 1999 * 1000000 /\
  0 <= tv_nsec (deadline lp64 noon 1999) < 1000000000 /\
  tv_nsec noon + (1999 mod 1000) * 1000000 < 2000000000.
Proof.
  assert (H1 : abi_ok lp64) by (unfold abi_ok; cbn; lia).
  assert (H2 : 0 <= 1999 < UINT_MODULUS)
    by (vm_compute; split; [discriminate | reflexivity]).
  assert (H3 : 1999 <> INFINITE) by discriminate.
  assert (H4 : in_signed (time_bits lp64) (tv_sec noon))
    by (vm_compute; split; discriminate).
  assert (H5 : 0 <= tv_nsec noon < 1000000000)
    by (vm_compute; split; [discriminate | reflexivity]).
  assert (H6 : tv_sec noon + (tv_nsec noon + 1999 * 1000000) / 1000000000
               <= signed_max (time_bits lp64)) by (vm_compute; discriminate).
  split; [tauto |].
  exact (deadline_exact lp64 noon 1999 H1 H2 H3 H4 H5 H6).
Defined.

(** The claim C9 fails where [time_t] ends: on a target with a 32-bit
    [time_t], one second after 03:14:07 on 19 January 2038 is not the
    deadline computed. *)
Lemma deadline_wraps_at_end_of_time32 :
  ~ (nanoseconds (deadline ilp32 end_of_time32 1000)
       = nanoseconds end_of_time32 + 1000 * 1000000 /\
     0 <= tv_nsec (deadline ilp32 end_of_time32 1000) < 1000000000).
Proof. intros [H _]. vm_compute in H. discriminate H. Qed.

(** * Further properties of the code *)

(** ** Events: signal, wait, destroy *)

(** X1.  [set_event] on a null handle returns [false] without a call.  On
    any other handle it makes exactly one call, the platform's signal on
    that handle, and returns whether that call reported success (a non-zero
    [BOOL] on Win32, status [0] on POSIX); it never closes the handle. *)
Theorem set_event_single_call
    (os : OS) (p : platform) (event : Z) (w : world os) :
  (event = nullptr -> run (set_event p event) w = (false, (w, []))) /\
  (event <> nullptr ->
   run (set_event p event) w =
     (signal_ok p (exec os (signal_call p event) w).1,
      ((exec os (signal_call p event) w).2,
       [(signal_call p event, (exec os (signal_call p event) w).1)]))).
Proof.
  split.
  - intros ->. reflexivity.
  - intros Hev. unfold set_event.
    destruct (Z.eqb_spec event nullptr) as [E | _]; [contradiction |].
    destruct p as [| a]; cbn [signal_call signal_ok]; unfold_code;
      exec_step; reflexivity.
Qed.

Lemma set_event_single_call_witness :
  (nullptr = nullptr /\
   run_ref (set_event (Posix lp64) nullptr) (final event_created)
   = (false, (final event_created, []))) /\
  (4 <> nullptr /\
   log (run_ref (set_event (Posix lp64) 4) (final event_created))
   = [(sem_post 4, 0)]).
Proof.
  pose proof (set_event_single_call reference_os (Posix lp64) nullptr
                (final event_created)) as [Hnull _].
  pose proof (set_event_single_call reference_os (Posix lp64) 4
                (final event_created)) as [_ Hlive].
  split; split.
  - reflexivity.
  - apply Hnull. reflexivity.
  - discriminate.
  - unfold run_ref. rewrite Hlive by discriminate.
    vm_compute. reflexivity.
Defined.

(** X2.  The calls of [wait_for_event].  A null handle: none, the result is
    [false].  Win32: one [WaitForSingleObject] with the timeout as given,
    [INFINITE] included.  POSIX with [INFINITE]: one [sem_wait], the clock
    is not read.  POSIX with a finite timeout: [clock_gettime] once, then
    one [sem_timedwait] whose deadline is computed from the time read
    before that call. *)
Theorem wait_for_event_calls
    (os : OS) (p : platform) (event timeout_ms : Z) (w : world os) :
  calls (log (run (wait_for_event p event timeout_ms) w)) =
    if event =? nullptr then []
    else match p with
         | Win32 => [WaitForSingleObject event timeout_ms]
         | Posix a =>
           if timeout_ms =? INFINITE then [sem_wait event]
           else [clock_gettime;
                 sem_timedwait event (deadline a (clock os w) timeout_ms)]
         end.
Proof.
  unfold wait_for_event.
  destruct (event =? nullptr); [reflexivity |].
  destruct p as [| a]; [| destruct (timeout_ms =? INFINITE)];
    unfold_code; repeat exec_step; reflexivity.
Qed.

(** X3.  For a non-null handle [close_event] makes these calls and no
    others: in the Win32 build [CloseHandle], whatever the name; in the
    POSIX build [sem_close], then [sem_unlink] of the name when one is
    given. *)
Theorem close_event_call_order
    (os : OS) (p : platform) (event : Z) (name : option string)
    (w : world os) :
  event <> nullptr ->
  calls (log (run (close_event p event name) w)) =
    close_event_call p event
    :: match p, name with
       | Posix _, Some n => [sem_unlink n]
       | _, _ => []
       end.
Proof.
  intros Hev. unfold close_event.
  destruct (Z.eqb_spec event nullptr) as [E | _]; [contradiction |].
  destruct p as [| a], name as [n |];
    unfold_code; repeat exec_step; reflexivity.
Qed.

Lemma close_event_call_order_witness :
  4 <> nullptr /\
  calls (log (run_ref (close_event (Posix lp64) 4 (Some "evt1"%string))
                (final event_created))) =
    [sem_close 4; sem_unlink "evt1"%string].
Proof.
  split.
  - discriminate.
  - apply (close_event_call_order reference_os (Posix lp64) 4
             (Some "evt1"%string) (final event_created)).
    discriminate.
Defined.

(** ** Shared regions: creation and mapping *)

Lemma int_of_ptr_of_int (fd : Z) : in_signed 32 fd -> int_of_ptr (ptr_of_int fd) = fd.
Proof. intros H. unfold int_of_ptr, ptr_of_int. apply wrap_signed_id; [lia | exact H]. Qed.

(** X4.  A non-null result of [create_shared_memory] means that the object
    was opened and sized and that nothing else was done.  Win32: the log is
    the one [CreateFileMappingA], whose value is the result.  POSIX: the
    log is [shm_open], which gave the result as descriptor, and [ftruncate]
    on it with the size as an [off_t], which did not fail; no diagnostic,
    no [close], no [shm_unlink]. *)
Theorem create_shared_memory_success_shape
    (os : OS) (p : platform) (n : string) (size : Z) (w : world os) :
  result (run (create_shared_memory p (Some n) size) w) <> nullptr ->
  match p with
  | Win32 =>
    log (run (create_shared_memory p (Some n) size) w) =
      [(CreateFileMappingA (wrap_unsigned 32 size) n,
        result (run (create_shared_memory p (Some n) size) w))]
  | Posix a =>
    exists r, r <> -1 /\
      result (run (create_shared_memory p (Some n) size) w) <> -1 /\
      log (run (create_shared_memory p (Some n) size) w) =
        [(shm_open n, result (run (create_shared_memory p (Some n) size) w));
         (ftruncate (result (run (create_shared_memory p (Some n) size) w))
            (off_t_of_size a size), r)]
  end.
Proof.
  unfold create_shared_memory.
  destruct (size =? 0); [intros H; contradiction H; reflexivity |].
  destruct p as [| a]; unfold_code.
  - exec_step. intros _. reflexivity.
  - exec_step. destruct (Z.eqb_spec r (-1)) as [-> | Hfd]; cbn [fst snd app].
    + exec_step. intros H. contradiction H. reflexivity.
    + exec_step. destruct (Z.eqb_spec r0 (-1)) as [-> | Hr]; cbn [fst snd app].
      * repeat exec_step. intros H. contradiction H. reflexivity.
      * intros _. exists r0. split; [exact Hr | split; [exact Hfd | reflexivity]].
Qed.

Lemma create_shared_memory_success_shape_witness :
  result region_created <> nullptr /\
  exists r, r <> -1 /\ result region_created <> -1 /\
    log region_created =
      [(shm_open "shm1"%string, result region_created);
       (ftruncate (result region_created) (off_t_of_size lp64 4096), r)].
Proof.
  assert (H : result region_created <> nullptr) by (vm_compute; discriminate).
  split; [exact H |].
  exact (create_shared_memory_success_shape reference_os (Posix lp64)
           "shm1"%string 4096 (boot noon) H).
Defined.

(** X5.  Whenever the POSIX [create_shared_memory] returns the null
    pointer although [shm_open] gave it a descriptor, and that descriptor is
    not [0], the descriptor has been closed and the name unlinked. *)
Theorem create_shared_memory_null_releases
    (os : OS) (a : abi) (n : string) (size : Z) (w : world os) (fd : Z) :
  result (run (create_shared_memory (Posix a) (Some n) size) w) = nullptr ->
  In (shm_open n, fd) (log (run (create_shared_memory (Posix a) (Some n) size) w)) ->
  fd <> -1 ->
  fd <> 0 ->
  In (close fd) (calls (log (run (create_shared_memory (Posix a) (Some n) size) w))) /\
  In (shm_unlink n)
     (calls (log (run (create_shared_memory (Posix a) (Some n) size) w))).
Proof.
  unfold create_shared_memory.
  destruct (size =? 0); [intros _ [] |].
  unfold_code. exec_step.
  destruct (Z.eqb_spec r (-1)) as [-> | Hfd]; cbn [fst snd app].
  - exec_step. intros _ [H | [H | []]] Hne; inversion H; subst; contradiction.
  - exec_step. destruct (Z.eqb_spec r0 (-1)) as [-> | Hr]; cbn [fst snd app].
    + repeat exec_step.
      intros _ [H | [H | [H | [H | [H | []]]]]] _ _; inversion H; subst.
      cbn. split; [do 3 right; left | do 4 right; left]; reflexivity.
    + unfold ptr_of_int. intros -> [H | [H | []]] _ H0; inversion H; subst.
      contradiction H0. reflexivity.
Qed.

Lemma create_shared_memory_null_releases_witness :
  (result region_too_large = nullptr /\
   In (shm_open "shm1"%string, 4) (log region_too_large) /\
   4 <> -1 /\ 4 <> 0) /\
  In (close 4) (calls (log region_too_large)) /\
  In (shm_unlink "shm1"%string) (calls (log region_too_large)).
Proof.
  assert (H1 : result region_too_large = nullptr) by (vm_compute; reflexivity).
  assert (H2 : In (shm_open "shm1"%string, 4) (log region_too_large))
    by (vm_compute; left; reflexivity).
  assert (H3 : 4 <> -1) by discriminate.
  assert (H4 : 4 <> 0) by discriminate.
  split; [split; [exact H1 | split; [exact H2 | split; [exact H3 | exact H4]]] |].
  exact (create_shared_memory_null_releases reference_os lp64 "shm1"%string
           (2 ^ 63) (boot noon) 4 H1 H2 H3 H4).
Defined.

(** X6.  The exception: when [shm_open] gives descriptor [0] and
    [ftruncate] succeeds, the POSIX [create_shared_memory] returns the null
    pointer, the value of its failures, although the region exists; the
    descriptor is not closed and the name is not unlinked. *)
Theorem descriptor_zero_is_returned_as_null
    (os : OS) (a : abi) (n : string) (size : Z) (w : world os) :
  size <> 0 ->
  (exec os (shm_open n) w).1 = 0 ->
  (exec os (ftruncate 0 (off_t_of_size a size)) (exec os (shm_open n) w).2).1
    <> -1 ->
  result (run (create_shared_memory (Posix a) (Some n) size) w) = nullptr /\
  calls (log (run (create_shared_memory (Posix a) (Some n) size) w)) =
    [shm_open n; ftruncate 0 (off_t_of_size a size)].
Proof.
  intros Hsize Hfd Hr. unfold create_shared_memory.
  destruct (Z.eqb_spec size 0) as [E | _]; [contradiction |].
  unfold_code. exec_step. cbn [fst snd] in Hfd, Hr. subst r.
  cbn [Z.eqb fst snd app]. exec_step. cbn [fst] in Hr.
  destruct (Z.eqb_spec r (-1)) as [Hbad | _]; [contradiction |].
  split; reflexivity.
Qed.

Lemma descriptor_zero_is_returned_as_null_witness :
  (4096 <> 0 /\
   (kernel_exec (shm_open "shm1"%string) (boot_without_stdin noon)).1 = 0 /\
   (kernel_exec (ftruncate 0 (off_t_of_size lp64 4096))
      (kernel_exec (shm_open "shm1"%string) (boot_without_stdin noon)).2).1 <> -1) /\
  result (run_ref (create_shared_memory (Posix lp64) (Some "shm1"%string) 4096)
            (boot_without_stdin noon)) = nullptr /\
  calls (log (run_ref (create_shared_memory (Posix lp64) (Some "shm1"%string) 4096)
                (boot_without_stdin noon))) =
    [shm_open "shm1"%string; ftruncate 0 (off_t_of_size lp64 4096)].
Proof.
  assert (H1 : 4096 <> 0) by discriminate.
  assert (H2 : (exec reference_os (shm_open "shm1"%string)
                  (boot_without_stdin noon)).1 = 0) by (vm_compute; reflexivity).
  assert (H3 : (exec reference_os (ftruncate 0 (off_t_of_size lp64 4096))
                  (exec reference_os (shm_open "shm1"%string)
                     (boot_without_stdin noon)).2).1 <> -1)
    by (vm_compute; discriminate).
  split; [split; [exact H1 | split; [exact H2 | exact H3]] |].
  exact (descriptor_zero_is_returned_as_null reference_os lp64 "shm1"%string
           4096 (boot_without_stdin noon) H1 H2 H3).
Defined.

(** X7.  When the mapping call does not fail, [map_shared_memory] returns
    the address it gave and has made that one call only: the backing handle
    is not closed. *)
Theorem map_success_keeps_backing
    (os : OS) (p : platform) (shm size : Z) (w : world os) :
  shm <> nullptr ->
  size <> 0 ->
  (exec os (map_call p shm size) w).1 <> map_failure p ->
  run (map_shared_memory p shm size) w =
    ((exec os (map_call p shm size) w).1,
     ((exec os (map_call p shm size) w).2,
      [(map_call p shm size, (exec os (map_call p shm size) w).1)])).
Proof.
  intros Hshm Hsize Hok. unfold map_shared_memory.
  destruct (Z.eqb_spec shm nullptr) as [E | _]; [contradiction |].
  destruct (Z.eqb_spec size 0) as [E | _]; [contradiction |].
  destruct p as [| a]; cbn [map_call map_failure] in *;
    unfold_code; exec_step; cbn [fst] in Hok.
  - destruct (Z.eqb_spec r nullptr) as [Hbad | _]; [contradiction | reflexivity].
  - destruct (Z.eqb_spec r MAP_FAILED) as [Hbad | _]; [contradiction | reflexivity].
Qed.

Lemma map_success_keeps_backing_witness :
  (4 <> nullptr /\ 4096 <> 0 /\
   (kernel_exec (map_call (Posix lp64) 4 4096) (final region_created)).1
   <> map_failure (Posix lp64)) /\
  run_ref (map_shared_memory (Posix lp64) 4 4096) (final region_created) =
    ((kernel_exec (map_call (Posix lp64) 4 4096) (final region_created)).1,
     ((kernel_exec (map_call (Posix lp64) 4 4096) (final region_created)).2,
      [(map_call (Posix lp64) 4 4096,
        (kernel_exec (map_call (Posix lp64) 4 4096) (final region_created)).1)])).
Proof.
  assert (H1 : 4 <> nullptr) by discriminate.
  assert (H2 : 4096 <> 0) by discriminate.
  assert (H3 : (exec reference_os (map_call (Posix lp64) 4 4096)
                  (final region_created)).1 <> map_failure (Posix lp64))
    by (vm_compute; discriminate).
  split; [split; [exact H1 | split; [exact H2 | exact H3]] |].
  exact (map_success_keeps_backing reference_os (Posix lp64) 4 4096
           (final region_created) H1 H2 H3).
Defined.

(** ** Shared regions: the functions together *)

Ltac code_step :=
  first
    [ exec_step
    | match goal with
      | |- context [if ?a =? ?b then _ else _] =>
          let E := fresh "T" in
          destruct (Z.eqb_spec a b) as [E | E]
      end ];
  cbn [fst snd app].

Ltac read_log H :=
  cbn [map fst In] in H;
  repeat match type of H with
         | _ \/ _ => destruct H as [H | H]
         end;
  try contradiction; try discriminate H.

(** X8.  Through create, map and destroy the POSIX build works on one
    descriptor: every [ftruncate], [mmap] and [close] of the life cycle is
    on the descriptor that [shm_open] returned, which the casts of the
    handle to a pointer and back to [int] give again. *)
Theorem lifecycle_uses_one_descriptor
    (os : OS) (a : abi) (n : string) (size : Z) (w : world os)
    (fd : Z) (c : os_call) (d : Z) :
  In (shm_open n, fd) (log (run (region_lifecycle (Posix a) n size) w)) ->
  in_signed 32 fd ->
  In c (calls (log (run (region_lifecycle (Posix a) n size) w))) ->
  descriptor_of c = Some d ->
  d = fd.
Proof.
  unfold region_lifecycle, create_shared_memory, map_shared_memory,
    close_shared_memory.
  unfold_code. repeat code_step.
  all: intros Hopen Hfd Hc Hd; read_log Hopen; read_log Hc.
  all: inversion Hopen; subst; cbn [descriptor_of] in Hd;
    try discriminate Hd; inversion Hd; subst.
  all: try reflexivity; try (apply int_of_ptr_of_int; assumption).
Qed.

Lemma lifecycle_uses_one_descriptor_witness :
  (In (shm_open "shm1"%string, 4)
      (log (run_ref (region_lifecycle (Posix lp64) "shm1"%string 4096) (boot noon))) /\
   in_signed 32 4 /\
   In (mmap 4096 4)
      (calls (log (run_ref (region_lifecycle (Posix lp64) "shm1"%string 4096)
                     (boot noon)))) /\
   descriptor_of (mmap 4096 4) = Some 4) /\
  4 = 4.
Proof.
  assert (H1 : In (shm_open "shm1"%string, 4)
      (log (run_ref (region_lifecycle (Posix lp64) "shm1"%string 4096) (boot noon))))
    by (vm_compute; left; reflexivity).
  assert (H2 : in_signed 32 4) by (vm_compute; split; discriminate).
  assert (H3 : In (mmap 4096 4)
      (calls (log (run_ref (region_lifecycle (Posix lp64) "shm1"%string 4096)
                     (boot noon)))))
    by (vm_compute; right; right; left; reflexivity).
  assert (H4 : descriptor_of (mmap 4096 4) = Some 4) by reflexivity.
  split; [split; [exact H1 | split; [exact H2 | split; [exact H3 | exact H4]]] |].
  exact (lifecycle_uses_one_descriptor reference_os lp64 "shm1"%string 4096
           (boot noon) 4 (mmap 4096 4) 4 H1 H2 H3 H4).
Defined.

(** X9.  When the mapping fails, [map_shared_memory] has closed the
    backing handle, and the destroy that follows closes it again: the life
    cycle ends with two closing calls on the same handle, and then, in the
    POSIX build, the unlinking of the name. *)
Theorem lifecycle_closes_twice_after_map_failure
    (os : OS) (p : platform) (n : string) (size : Z) (w : world os) (shm : Z) :
  result (run (create_shared_memory p (Some n) size) w) = shm ->
  In (map_call p shm size, map_failure p)
     (log (run (region_lifecycle p n size) w)) ->
  exists before,
    calls (log (run (region_lifecycle p n size) w)) =
      before ++ [close_call p shm; close_call p shm]
      ++ match p with Win32 => [] | Posix _ => [shm_unlink n] end.
Proof.
  unfold region_lifecycle, create_shared_memory, map_shared_memory,
    close_shared_memory.
  destruct p as [| a]; cbn [map_call map_failure close_call];
    unfold_code; repeat code_step.
  all: intros <- Hmap; unfold ptr_of_int in *; read_log Hmap.
  all: try (inversion Hmap; subst; try contradiction).
  all: try (exfalso; unfold MAP_FAILED, nullptr in *; congruence).
  all: cbn [map fst].
  all: try (eexists [_; _]; reflexivity).
  all: try (eexists [_; _; _; _]; reflexivity).
  all: try (eexists [_; _; _]; reflexivity).
Qed.

Lemma lifecycle_closes_twice_after_map_failure_witness :
  (result (run_ref (create_shared_memory (Posix lp64) (Some "shm1"%string) (2 ^ 30))
             (boot_small_vm noon)) = 4 /\
   In (map_call (Posix lp64) 4 (2 ^ 30), map_failure (Posix lp64))
      (log (run_ref (region_lifecycle (Posix lp64) "shm1"%string (2 ^ 30))
              (boot_small_vm noon)))) /\
  exists before,
    calls (log (run_ref (region_lifecycle (Posix lp64) "shm1"%string (2 ^ 30))
                  (boot_small_vm noon))) =
      before ++ [close_call (Posix lp64) 4; close_call (Posix lp64) 4]
      ++ [shm_unlink "shm1"%string].
Proof.
  assert (H1 : result (run_ref (create_shared_memory (Posix lp64)
                                  (Some "shm1"%string) (2 ^ 30))
                         (boot_small_vm noon)) = 4) by (vm_compute; reflexivity).
  assert (H2 : In (map_call (Posix lp64) 4 (2 ^ 30), map_failure (Posix lp64))
      (log (run_ref (region_lifecycle (Posix lp64) "shm1"%string (2 ^ 30))
              (boot_small_vm noon))))
    by (vm_compute; right; right; left; reflexivity).
  split; [split; [exact H1 | exact H2] |].
  exact (lifecycle_closes_twice_after_map_failure reference_os (Posix lp64)
           "shm1"%string (2 ^ 30) (boot_small_vm noon) 4 H1 H2).
Defined.

(** X10.  In the Win32 build the size reaches [CreateFileMappingA] as a
    32-bit word: two non-zero sizes with the same low 32 bits give the same
    run, so that a size that is a multiple of 4 GiB passes the zero check
    and asks for a mapping of size [0]. *)
Theorem win32_size_is_cut_to_32_bits
    (os : OS) (n : string) (size size' : Z) (w : world os) :
  size <> 0 ->
  size' <> 0 ->
  size mod 2 ^ 32 = size' mod 2 ^ 32 ->
  run (create_shared_memory Win32 (Some n) size) w =
    run (create_shared_memory Win32 (Some n) size') w /\
  (size mod 2 ^ 32 = 0 ->
   calls (log (run (create_shared_memory Win32 (Some n) size) w)) =
     [CreateFileMappingA 0 n]).
Proof.
  intros Hs Hs' Hlow. unfold create_shared_memory, wrap_unsigned.
  destruct (Z.eqb_spec size 0) as [E | _]; [contradiction |].
  destruct (Z.eqb_spec size' 0) as [E | _]; [contradiction |].
  rewrite Hlow. split; [reflexivity |].
  intros Hz. rewrite Hz. unfold_code. exec_step. reflexivity.
Qed.

Lemma win32_size_is_cut_to_32_bits_witness :
  (2 ^ 32 <> 0 /\ 2 ^ 33 <> 0 /\ 2 ^ 32 mod 2 ^ 32 = 2 ^ 33 mod 2 ^ 32) /\
  run_ref (create_shared_memory Win32 (Some "shm1"%string) (2 ^ 32)) (boot noon) =
    run_ref (create_shared_memory Win32 (Some "shm1"%string) (2 ^ 33)) (boot noon) /\
  (2 ^ 32 mod 2 ^ 32 = 0 ->
   calls (log (run_ref (create_shared_memory Win32 (Some "shm1"%string) (2 ^ 32))
                 (boot noon))) =
     [CreateFileMappingA 0 "shm1"%string]).
Proof.
  assert (H1 : 2 ^ 32 <> 0) by discriminate.
  assert (H2 : 2 ^ 33 <> 0) by discriminate.
  assert (H3 : 2 ^ 32 mod 2 ^ 32 = 2 ^ 33 mod 2 ^ 32) by reflexivity.
  split; [split; [exact H1 | split; [exact H2 | exact H3]] |].
  exact (win32_size_is_cut_to_32_bits reference_os "shm1"%string (2 ^ 32)
           (2 ^ 33) (boot noon) H1 H2 H3).
Defined.

(** ** The deadline: composition *)

(** The deadline in closed form: seconds and nanoseconds of the exact sum,
    by division. *)
Lemma deadline_fields (a : abi) (ts : timespec) (timeout_ms : Z) :
  abi_ok a ->
  0 <= timeout_ms < UINT_MODULUS ->
  in_signed (time_bits a) (tv_sec ts) ->
  0 <= tv_nsec ts < 1000000000 ->
  tv_sec ts + (tv_nsec ts + timeout_ms * 1000000) / 1000000000
    <= signed_max (time_bits a) ->
  deadline a ts timeout_ms =
    {| tv_sec := tv_sec ts + (tv_nsec ts + timeout_ms * 1000000) / 1000000000;
       tv_nsec := (tv_nsec ts + timeout_ms * 1000000) mod 1000000000 |}.
Proof.
  intros [Htime Hlong] Hms Hsec Hnsec Hfit.
  unfold UINT_MODULUS in Hms. change (2 ^ 32) with 4294967296 in Hms.
  pose proof (signed_range_32 _ Htime) as Ht32.
  pose proof (signed_range_32 _ Hlong) as Hl32.
  assert (Hq : 0 <= timeout_ms / 1000 <= 4294967)
    by (Z.div_mod_to_equations; lia).
  assert (Hr : 0 <= timeout_ms mod 1000 < 1000)
    by (apply Z.mod_pos_bound; lia).
  assert (Hsplit : timeout_ms = 1000 * (timeout_ms / 1000) + timeout_ms mod 1000)
    by (apply Z.div_mod; lia).
  set (q := timeout_ms / 1000) in *. set (r := timeout_ms mod 1000) in *.
  assert (Hsum : tv_nsec ts + timeout_ms * 1000000
                 = tv_nsec ts + r * 1000000 + q * 1000000000) by lia.
  rewrite Hsum in *. rewrite Z.div_add in * by lia. rewrite Z_mod_plus_full.
  unfold deadline, in_signed in *. fold q r.
  rewrite !wrap_unsigned_id by (change (2 ^ 32) with 4294967296; lia).
  rewrite (wrap_signed_id (long_bits a) (tv_nsec ts + r * 1000000))
    by (unfold in_signed; lia).
  assert (Hc : 0 <= (tv_nsec ts + r * 1000000) / 1000000000 <= 1)
    by (Z.div_mod_to_equations; lia).
  rewrite (wrap_signed_id (time_bits a) (tv_sec ts + q))
    by (unfold in_signed; lia).
  destruct (Z.leb_spec 1000000000 (tv_nsec ts + r * 1000000)) as [Hge | Hlt].
  - assert (Hone : (tv_nsec ts + r * 1000000) / 1000000000 = 1)
      by (Z.div_mod_to_equations; lia).
    rewrite (wrap_signed_id (time_bits a) (tv_sec ts + q + 1))
      by (unfold in_signed; lia).
    rewrite (wrap_signed_id (long_bits a)) by (unfold in_signed; lia).
    f_equal; Z.div_mod_to_equations; lia.
  - f_equal; Z.div_mod_to_equations; lia.
Qed.

(** X11.  Timeouts add up: a zero timeout gives the starting time back,
    and the deadline of [m2] milliseconds after the deadline of [m1]
    milliseconds is the deadline of [m1 + m2] milliseconds, as long as the
    sum is an [unsigned int] and the last deadline fits [time_t]. *)
Theorem deadline_additive (a : abi) (ts : timespec) (m1 m2 : Z) :
  abi_ok a ->
  0 <= m1 ->
  0 <= m2 ->
  m1 + m2 < UINT_MODULUS ->
  in_signed (time_bits a) (tv_sec ts) ->
  0 <= tv_nsec ts < 1000000000 ->
  tv_sec ts + (tv_nsec ts + (m1 + m2) * 1000000) / 1000000000
    <= signed_max (time_bits a) ->
  deadline a ts 0 = ts /\
  deadline a (deadline a ts m1) m2 = deadline a ts (m1 + m2).
Proof.
  intros Habi Hm1 Hm2 Hsum Hsec Hnsec Hfit.
  assert (Hmod : UINT_MODULUS = 4294967296) by reflexivity.
  assert (Hmono : (tv_nsec ts + m1 * 1000000) / 1000000000
                  <= (tv_nsec ts + (m1 + m2) * 1000000) / 1000000000)
    by (apply Z.div_le_mono; lia).
  assert (Hlow : 0 <= (tv_nsec ts + m1 * 1000000) / 1000000000)
    by (apply Z.div_pos; lia).
  split.
  - rewrite deadline_fields; try assumption; try lia.
    + destruct ts as [s ns]. cbn [tv_sec tv_nsec] in *.
      f_equal; Z.div_mod_to_equations; lia.
    + replace (tv_nsec ts + 0 * 1000000) with (tv_nsec ts) by lia.
      rewrite Z.div_small by lia. unfold in_signed in Hsec. lia.
  - rewrite (deadline_fields a ts m1); try assumption; try lia.
    rewrite (deadline_fields a ts (m1 + m2)); try assumption; try lia.
    assert (Hstep :
      (tv_nsec ts + m1 * 1000000) / 1000000000
      + ((tv_nsec ts + m1 * 1000000) mod 1000000000 + m2 * 1000000) / 1000000000
      = (tv_nsec ts + (m1 + m2) * 1000000) / 1000000000 /\
      ((tv_nsec ts + m1 * 1000000) mod 1000000000 + m2 * 1000000) mod 1000000000
      = (tv_nsec ts + (m1 + m2) * 1000000) mod 1000000000)
      by (Z.div_mod_to_equations; lia).
    destruct Hstep as [Hdiv Hrem].
    rewrite deadline_fields; cbn [tv_sec tv_nsec]; try assumption; try lia.
    + f_equal; lia.
    + unfold in_signed in *. lia.
    + apply Z.mod_pos_bound. lia.
Qed.

Lemma deadline_additive_witness :
  (abi_ok lp64 /\ 0 <= 800 /\ 0 <= 1199 /\ 800 + 1199 < UINT_MODULUS /\
   in_signed (time_bits lp64) (tv_sec noon) /\
   0 <= tv_nsec noon < 1000000000 /\
   tv_sec noon + (tv_nsec noon + (800 + 1199) * 1000000) / 1000000000
     <= signed_max (time_bits lp64)) /\
  deadline lp64 noon 0 = noon /\
  deadline lp64 (deadline lp64 noon 800) 1199 = deadline lp64 noon (800 + 1199).
Proof.
  assert (H1 : abi_ok lp64) by (unfold abi_ok; cbn; lia).
  assert (H2 : 0 <= 800) by lia.
  assert (H3 : 0 <= 1199) by lia.
  assert (H4 : 800 + 1199 < UINT_MODULUS) by reflexivity.
  assert (H5 : in_signed (time_bits lp64) (tv_sec noon))
    by (vm_compute; split; discriminate).
  assert (H6 : 0 <= tv_nsec noon < 1000000000)
    by (vm_compute; split; [discriminate | reflexivity]).
  assert (H7 : tv_sec noon + (tv_nsec noon + (800 + 1199) * 1000000) / 1000000000
               <= signed_max (time_bits lp64)) by (vm_compute; discriminate).
  split; [tauto |].
  exact (deadline_additive lp64 noon 800 1199 H1 H2 H3 H4 H5 H6 H7).
Defined.

(** ** Events on the reference kernel *)

(** A wait on an open event returns whether the event was signaled and
    leaves it unsignaled; the handle stays open and the process runs on.
    On an unsignaled event the wait has a timeout, and no signal handler
    is due. *)
Lemma wait_for_event_consumes
    (p : platform) (event id : Z) (signaled : bool) (timeout_ms : Z)
    (k : world reference_os) (tr : trace) :
  event <> nullptr ->
  (signaled = false -> timeout_ms <> INFINITE /\ signals k = O) ->
  handles k !! event = Some id ->
  objects k !! id = Some (event_object p signaled) ->
  exists k' tr',
    wait_for_event (os := reference_os) p event timeout_ms (k, tr)
      = (signaled, (k', tr')) /\
    handles k' !! event = Some id /\
    objects k' !! id = Some (event_object p false) /\
    signals k' = signals k /\
    process k' = process k.
Proof.
  intros Hev Hwait Hh Ho. unfold wait_for_event.
  destruct (Z.eqb_spec event nullptr) as [Hbad | _]; [contradiction |].
  destruct signaled.
  - destruct p as [| a]; [| destruct (timeout_ms =? INFINITE)];
      unfold bind, call, get_time, ret;
      cbn [exec reference_os kernel_exec event_object] in *;
      unfold object_of; rewrite Hh, Ho; cbn;
      eexists _, _; (split; [reflexivity |]); cbn;
      (split; [exact Hh | split; [apply lookup_insert_eq | split; reflexivity]]).
  - destruct Hwait as [Hfinite Hquiet]; [reflexivity |].
    destruct (Z.eqb_spec timeout_ms INFINITE) as [Hbad | _]; [contradiction |].
    destruct p as [| a];
      unfold bind, call, get_time, ret;
      cbn [exec reference_os kernel_exec event_object] in *;
      unfold object_of; rewrite Hh, Ho.
    + destruct (Z.eqb_spec timeout_ms INFINITE) as [Hbad | _]; [contradiction |].
      eexists _, _. split; [reflexivity |].
      split; [exact Hh | split; [exact Ho | split; reflexivity]].
    + cbn. destruct (negb _); [| destruct (timespec_le _ _); [| rewrite Hquiet]];
        eexists _, _; (split; [reflexivity |]); cbn;
        (split; [exact Hh | split; [exact Ho | split; [| reflexivity]]]);
        first [reflexivity | exact Hquiet].
Qed.

(** A signal on an open, unsignaled event succeeds and leaves it
    signaled. *)
Lemma set_event_signals
    (p : platform) (event id : Z) (k : world reference_os) (tr : trace) :
  event <> nullptr ->
  handles k !! event = Some id ->
  objects k !! id = Some (event_object p false) ->
  exists k' tr',
    set_event (os := reference_os) p event (k, tr) = (true, (k', tr')) /\
    handles k' !! event = Some id /\
    objects k' !! id = Some (event_object p true) /\
    signals k' = signals k /\
    process k' = process k.
Proof.
  intros Hev Hh Ho. unfold set_event.
  destruct (Z.eqb_spec event nullptr) as [Hbad | _]; [contradiction |].
  destruct p as [| a]; unfold bind, call, ret;
    cbn [exec reference_os kernel_exec event_object] in *;
    unfold object_of; rewrite Hh, Ho; cbn;
    eexists _, _; (split; [reflexivity |]); cbn;
    (split; [exact Hh | split; [apply lookup_insert_eq | split; reflexivity]]).
Qed.

(** X13.  On the reference kernel, in either build, an open event that is
    not signaled behaves as an auto-reset event under waits with a timeout,
    as long as no signal handler interrupts them: a wait fails, a signal
    succeeds, the wait after it succeeds and consumes the signal, the next
    wait fails again, and the process has neither blocked nor died. *)
Theorem one_signal_releases_one_wait
    (p : platform) (event id timeout_ms : Z) (k : kernel) :
  event <> nullptr ->
  timeout_ms <> INFINITE ->
  signals k = O ->
  process k = Running ->
  handles k !! event = Some id ->
  objects k !! id = Some (event_object p false) ->
  result (run_ref (signal_between_waits p event timeout_ms) k)
    = (false, true, true, false) /\
  process (final (run_ref (signal_between_waits p event timeout_ms) k))
    = Running.
Proof.
  intros Hev Hfinite Hquiet Hrun Hh Ho.
  unfold run_ref, run, signal_between_waits, result, final, bind.
  destruct (wait_for_event_consumes p event id false timeout_ms k []
              Hev (fun _ => conj Hfinite Hquiet) Hh Ho)
    as (k1 & tr1 & E1 & Hh1 & Ho1 & Hs1 & Hp1).
  unfold trace in E1. rewrite E1.
  destruct (set_event_signals p event id k1 tr1 Hev Hh1 Ho1)
    as (k2 & tr2 & E2 & Hh2 & Ho2 & Hs2 & Hp2).
  unfold trace in E2. rewrite E2.
  destruct (wait_for_event_consumes p event id true timeout_ms k2 tr2
              Hev (fun H => ltac:(discriminate H)) Hh2 Ho2)
    as (k3 & tr3 & E3 & Hh3 & Ho3 & Hs3 & Hp3).
  unfold trace in E3. rewrite E3.
  assert (Hquiet3 : signals k3 = O) by congruence.
  destruct (wait_for_event_consumes p event id false timeout_ms k3 tr3
              Hev (fun _ => conj Hfinite Hquiet3) Hh3 Ho3)
    as (k4 & tr4 & E4 & _ & _ & _ & Hp4).
  unfold trace in E4. rewrite E4.
  split; [reflexivity |]. cbn. congruence.
Qed.

Lemma one_signal_releases_one_wait_witness :
  (4 <> nullptr /\ 100 <> INFINITE /\
   signals (final event_created) = O /\
   process (final event_created) = Running /\
   handles (final event_created) !! 4 = Some 3 /\
   objects (final event_created) !! 3 = Some (event_object (Posix lp64) false)) /\
  result (run_ref (signal_between_waits (Posix lp64) 4 100) (final event_created))
    = (false, true, true, false) /\
  process (final (run_ref (signal_between_waits (Posix lp64) 4 100)
                    (final event_created)))
    = Running.
Proof.
  assert (H1 : 4 <> nullptr) by discriminate.
  assert (H2 : 100 <> INFINITE) by discriminate.
  assert (H3 : signals (final event_created) = O) by (vm_compute; reflexivity).
  assert (H4 : process (final event_created) = Running)
    by (vm_compute; reflexivity).
  assert (H5 : handles (final event_created) !! 4 = Some 3)
    by (vm_compute; reflexivity).
  assert (H6 : objects (final event_created) !! 3
               = Some (event_object (Posix lp64) false))
    by (vm_compute; reflexivity).
  split; [split; [exact H1 | split; [exact H2 | split; [exact H3 |
          split; [exact H4 | split; [exact H5 | exact H6]]]]] |].
  exact (one_signal_releases_one_wait (Posix lp64) 4 3 100 (final event_created)
           H1 H2 H3 H4 H5 H6).
Defined.

(** ** Destroying a region on the reference kernel *)








